(** * The speech-length gate: duration estimate, middle trim, request handler

    A shallow embedding of [app.py] (the [/validate_audio] handler and
    [trim_text_middle]) and of [calculate_audio_duration] from
    [minimal_assistant.py], with the properties of the length gate proved
    over it.

    Python values are modelled as the interpreter has them: [str] is a
    sequence of Unicode code points, [int] is unbounded, [float] is IEEE 754
    binary64 (the Standard Library's [SpecFloat]), a [dict] with string keys
    is a finite map, and a raised exception is a value of [outcome].  The
    summarization pipeline is external: a handler run is a tree of its calls,
    which [run] interprets against any summarizer. *)

From Stdlib Require Import ZArith QArith Qround List Bool Lia String Ascii.
From Stdlib Require Import Floats.SpecFloat.
From stdpp Require Import base option list strings gmap.

Local Open Scope Z_scope.
#[local] Set Warnings "-register-all".

(** ** Python values *)

(** A Python [str]: the sequence of its code points. *)
Definition str := list N.

(** The code points of an ASCII literal of the source. *)
Fixpoint str_of_string (s : string) : str :=
  match s with
  | EmptyString => []
  | String a s' => N_of_ascii a :: str_of_string s'
  end.

(** What [json.loads] produces (and what [jsonify] accepts): [None], [bool],
    [int], [float], [str], [list] and [dict] with string keys. *)
Inductive json : Type :=
  | JNull
  | JBool (b : bool)
  | JInt (z : Z)
  | JFloat (f : spec_float)
  | JStr (s : str)
  | JArr (l : list json)
  | JObj (d : gmap string json).

(** The exceptions the modelled code can raise; [External] is whatever the
    summarization pipeline raises. *)
Inductive exn : Type :=
  | TypeError
  | AttributeError
  | ValueError
  | OverflowError
  | ZeroDivisionError
  | IndexError
  | KeyError
  | External (name : string).

Inductive outcome (A : Type) : Type :=
  | Ok (a : A)
  | Raise (e : exn).
Arguments Ok {A} a.
Arguments Raise {A} e.

Definition obind {A B} (x : outcome A) (f : A -> outcome B) : outcome B :=
  match x with
  | Ok a => f a
  | Raise e => Raise e
  end.

Global Instance outcome_ret : MRet outcome := fun _ a => Ok a.
Global Instance outcome_bind : MBind outcome := fun _ _ f x => obind x f.

(** Python truth value: [bool(v)]. *)
Definition truthy (v : json) : bool :=
  match v with
  | JNull => false
  | JBool b => b
  | JInt z => negb (z =? 0)
  | JFloat (S754_zero _) => false
  | JFloat _ => true
  | JStr s => negb (bool_decide (s = []))
  | JArr l => match l with [] => false | _ => true end
  | JObj d => negb (bool_decide (d = ∅))
  end.

(** ** Floating point: binary64, as CPython's [float] *)

Definition prec : Z := 53.
Definition emax : Z := 1024.

(** [float(z)] for an [int]: rounded to nearest even, [OverflowError] when the
    rounded value is out of range. *)
Definition float_of_int (z : Z) : outcome spec_float :=
  match binary_normalize prec emax z 0 false with
  | S754_infinity _ => Raise OverflowError
  | f => Ok f
  end.

(** [a / b] on two [int]s.  For operands below [2^53], which convert exactly,
    the correctly rounded quotient CPython computes is the binary64 quotient
    of the converted operands. *)
Definition int_truediv_int (a b : Z) : outcome spec_float :=
  if b =? 0 then Raise ZeroDivisionError
  else fa ← float_of_int a; fb ← float_of_int b; Ok (SFdiv prec emax fa fb).

Definition float_is_zero (f : spec_float) : bool :=
  match f with S754_zero _ => true | _ => false end.

(** [a / f] with [a] an [int] and [f] a [float]: [a] is converted first. *)
Definition int_truediv_float (a : Z) (f : spec_float) : outcome spec_float :=
  fa ← float_of_int a;
  if float_is_zero f then Raise ZeroDivisionError else Ok (SFdiv prec emax fa f).

(** [a * f] with [a] an [int] and [f] a [float]. *)
Definition int_mul_float (a : Z) (f : spec_float) : outcome spec_float :=
  fa ← float_of_int a; Ok (SFmul prec emax fa f).

(** [int(f)]: truncation towards zero. *)
Definition int_of_float (f : spec_float) : outcome Z :=
  match f with
  | S754_zero _ => Ok 0
  | S754_finite s m e =>
      let a := Z.shiftl (Z.pos m) e in Ok (if s then - a else a)
  | S754_infinity _ => Raise OverflowError
  | S754_nan => Raise ValueError
  end.

(** The literal [0.5], the default [ratio] of [trim_text_middle]. *)
Definition half : spec_float := S754_finite false 4503599627370496 (-53).

(** [v <= n] for a decoded JSON value [v] and an [int] literal [n] that a
    binary64 holds exactly: [bool] counts as [int], a [float] is compared by
    value ([False] for NaN), anything else is not ordered against [int]. *)
Definition le_int (v : json) (n : Z) : outcome bool :=
  match v with
  | JBool b => Ok (Z.b2z b <=? n)
  | JInt z => Ok (z <=? n)
  | JFloat f => Ok (SFleb f (binary_normalize prec emax n 0 false))
  | _ => Raise TypeError
  end.

(** ** Strings and lists *)

(** [str.isspace] on one code point: the Unicode white space CPython's
    [split] separates on. *)
Definition isspace (c : N) : bool :=
  ((9 <=? c) && (c <=? 13) || (28 <=? c) && (c <=? 32)
   || (c =? 133) || (c =? 160) || (c =? 5760)
   || (8192 <=? c) && (c <=? 8202)
   || (c =? 8232) || (c =? 8233) || (c =? 8239) || (c =? 8287)
   || (c =? 12288))%N.

(** [s.split()]: the maximal runs of non-space code points, in order.  [word]
    holds the run being read, last code point first. *)
Fixpoint split_from (s : str) (word : str) : list str :=
  match s with
  | [] => match word with [] => [] | _ => [rev word] end
  | c :: s' =>
      if isspace c
      then match word with
           | [] => split_from s' []
           | _ => rev word :: split_from s' []
           end
      else split_from s' (c :: word)
  end.

Definition split (s : str) : list str := split_from s [].

(** [sep.join(ws)]. *)
Fixpoint join (sep : str) (ws : list str) : str :=
  match ws with
  | [] => []
  | [w] => w
  | w :: ws' => w ++ sep ++ join sep ws'
  end.

(** A slice bound [i] of a sequence of length [n]: negative bounds count from
    the end, and every bound is clamped to the sequence. *)
Definition slice_bound (n i : Z) : Z :=
  if i <? 0 then Z.max 0 (i + n) else Z.min i n.

(** [l[start:end]]. *)
Definition slice {A} (l : list A) (start stop : Z) : list A :=
  let n := Z.of_nat (length l) in
  let lo := slice_bound n start in
  let hi := slice_bound n stop in
  take (Z.to_nat (hi - lo)) (drop (Z.to_nat lo) l).

Definition space : str := str_of_string " ".

(** ** The summarizer and the handler runs *)

(** One call of the module-level [summarizer] pipeline: the text and the
    keyword arguments [max_length], [min_length] and [do_sample]. *)
Record summarizer_call : Type := SummarizerCall {
  call_text : str;
  max_length : Z;
  min_length : Z;
  do_sample : bool
}.

(** A handler run: it returns, raises, or calls the summarizer and goes on
    with the list of result dictionaries the pipeline hands back. *)
Inductive prog (A : Type) : Type :=
  | Return (a : A)
  | Throw (e : exn)
  | Summarizer (c : summarizer_call) (k : list (gmap string json) -> prog A).
Arguments Return {A} a.
Arguments Throw {A} e.
Arguments Summarizer {A} c k.

Fixpoint pbind {A B} (p : prog A) (f : A -> prog B) : prog B :=
  match p with
  | Return a => f a
  | Throw e => Throw e
  | Summarizer c k => Summarizer c (fun r => pbind (k r) f)
  end.

Global Instance prog_ret : MRet prog := fun _ a => Return a.
Global Instance prog_bind : MBind prog := fun _ _ f p => pbind p f.

(** A pure step that may raise, run inside a handler. *)
Definition lift {A} (x : outcome A) : prog A :=
  match x with
  | Ok a => Return a
  | Raise e => Throw e
  end.

Definition summarizer (text : str) (max_len min_len : Z) (sample : bool)
  : prog (list (gmap string json)) :=
  Summarizer (SummarizerCall text max_len min_len sample) Return.

(** The summarizer as a black box: what it answers to a call, or the
    exception it raises. *)
Definition oracle : Type := summarizer_call -> outcome (list (gmap string json)).

(** Running a handler against a summarizer: the calls made, in order, and the
    result.  An exception of the summarizer is not caught anywhere in the
    handler, so it ends the run. *)
Fixpoint run {A} (o : oracle) (p : prog A) : list summarizer_call * outcome A :=
  match p with
  | Return a => ([], Ok a)
  | Throw e => ([], Raise e)
  | Summarizer c k =>
      match o c with
      | Ok r => let '(calls, res) := run o (k r) in (c :: calls, res)
      | Raise e => ([c], Raise e)
      end
  end.

(** ** [app.py] *)

(** [trim_text_middle(text, ratio)]. *)
Definition trim_text_middle (text : str) (ratio : spec_float) : outcome str :=
  let words := split text in
  let total_words := Z.of_nat (length words) in
  if total_words <=? 150 then Ok text
  else
    product ← int_mul_float total_words ratio;
    trim_size ← int_of_float product;
    let start := (total_words - trim_size) / 2 in
    let stop := start + trim_size in
    Ok (join space (slice words start stop)).

(** An HTTP response: status code and JSON body. *)
Record response : Type := Response {
  status : Z;
  body : gmap string json
}.

Definition jsonify (d : gmap string json) : response := Response 200 d.

(** [request.json or {}], as the dictionary [.get] is then called on; a
    truthy body that is not an object has no [get]. *)
Definition request_data (request_json : json) : outcome (gmap string json) :=
  match (if truthy request_json then request_json else JObj ∅) with
  | JObj d => Ok d
  | _ => Raise AttributeError
  end.

(** The receiver of [.split()]: only [str] has the method. *)
Definition as_str (v : json) : outcome str :=
  match v with
  | JStr s => Ok s
  | _ => Raise AttributeError
  end.

(** [l[0]] on the pipeline's result list. *)
Definition first_item {A} (l : list A) : outcome A :=
  match l with
  | x :: _ => Ok x
  | [] => Raise IndexError
  end.

(** [d[key]]. *)
Definition getitem (d : gmap string json) (key : string) : outcome json :=
  match d !! key with
  | Some v => Ok v
  | None => Raise KeyError
  end.

Definition missing_text : str := str_of_string "The 'text' field is missing.".

(** [handle_audio_validation()], on the decoded body [request.json]. *)
Definition handle_audio_validation (request_json : json) : prog response :=
  data ← lift (request_data request_json);
  let text := default (JStr []) (data !! "text") in
  let length := default (JInt 0) (data !! "length") in
  if negb (truthy text)
  then Return (Response 400 {[ "error" := JStr missing_text ]})
  else
    short ← lift (le_int length 60);
    if short : bool
    then Return (jsonify {[ "message" := text ]})
    else
      s ← lift (as_str text);
      trimmed_text ← lift (trim_text_middle s half);
      results ← summarizer trimmed_text 100 50 false;
      item ← lift (first_item results);
      summary ← lift (getitem item "summary_text");
      Return (jsonify {[ "message" := summary ]}).

(** ** [minimal_assistant.py] *)

(** [calculate_audio_duration(text)]. *)
Definition calculate_audio_duration (text : str) : outcome spec_float :=
  words_per_second ← int_truediv_int 150 60;
  let word_count := Z.of_nat (length (split text)) in
  int_truediv_float word_count words_per_second.

(** ** Vocabulary of the properties *)

(** *** Numbers *)

(** The binary64 value of a small [int] literal. *)
Definition float_lit (n : Z) : spec_float := binary_normalize prec emax n 0 false.

(** The literal [2.5]. *)
Definition two_and_a_half : spec_float := S754_finite false 5629499534213120 (-51).

(** The largest length of a CPython sequence on a 64-bit build. *)
Definition PY_SSIZE_T_MAX : Z := 2 ^ 63 - 1.

(** A float that is zero or positive, and finite. *)
Definition nonneg_finite (f : spec_float) : Prop :=
  f = S754_zero false \/ exists m e, f = S754_finite false m e.

(** [within B m e]: the mantissa [m] at exponent [e] is non-negative and
    stands for a value below [2^B]. *)
Definition within (B m e : Z) : Prop := 0 <= m /\ e <= B /\ m < 2 ^ (B - e).

(** A non-negative finite float below [2^B]. *)
Definition float_within (B : Z) (f : spec_float) : Prop :=
  f = S754_zero false \/
  exists m e, f = S754_finite false m e /\ within B (Z.pos m) e.

(** A duration, as the [length] field carries it: a JSON number, [int] or
    [float].  [at_most v n] is [v <= n] on numbers, [exceeds v n] is [v > n]. *)
Definition at_most (v : json) (n : Z) : Prop :=
  match v with
  | JInt z => z <= n
  | JFloat f => SFleb f (float_lit n) = true
  | _ => False
  end.

Definition exceeds (v : json) (n : Z) : Prop :=
  match v with
  | JInt z => n < z
  | JFloat f => SFltb (float_lit n) f = true
  | _ => False
  end.

(** *** Responses and the gate as an operation *)

(** The two responses of the handler that are not the summary. *)
Definition pass_through (text : json) : response := jsonify {[ "message" := text ]}.

Definition invalid_input : response :=
  Response 400 {[ "error" := JStr missing_text ]}.

(** The success message of a response, if it is one. *)
Definition message_of (r : response) : option json :=
  if status r =? 200 then body r !! "message" else None.

(** The call the handler makes on a text it has trimmed. *)
Definition summarize_call (trimmed : str) : summarizer_call :=
  SummarizerCall trimmed 100 50 false.

(** The rest of the handler once the summarizer has answered. *)
Definition after_summary (results : list (gmap string json)) : prog response :=
  item ← lift (first_item results);
  summary ← lift (getitem item "summary_text");
  Return (jsonify {[ "message" := summary ]}).

(** The gate as an operation on a text and a duration: the handler run on the
    body [{"text": text, "length": d}] against a summarizer. *)
Definition gate (o : oracle) (text d : json) : outcome response :=
  snd (run o (handle_audio_validation (JObj (<["text" := text]> {[ "length" := d ]})))).

(** Gating the message of an earlier result again. *)
Definition regate (o : oracle) (r : outcome response) (d' : json) : outcome response :=
  match r with
  | Ok resp =>
      match message_of resp with
      | Some m => gate o m d'
      | None => r
      end
  | Raise e => Raise e
  end.

(** *** Summarizers and sample inputs *)

(** A summarizer that answers every call with the one summary [s]. *)
Definition constant_summarizer (s : str) : oracle :=
  fun _ => Ok [ {[ "summary_text" := JStr s ]} ].

(** A summarizer that raises on every call. *)
Definition failing_summarizer (name : string) : oracle :=
  fun _ => Raise (External name).

(** A summarizer whose summaries are never empty strings. *)
Definition summaries_nonempty (o : oracle) : Prop :=
  forall c item rest v,
    o c = Ok (item :: rest) -> item !! "summary_text" = Some v ->
    exists s, v = JStr s /\ s <> [].

(** Whether [split_from] is in the middle of a word: 1 if so, else 0. *)
Definition pending (word : str) : nat :=
  match word with [] => 0 | _ => 1 end.

(** Sample inputs. *)
Definition sample_word (i : nat) : str :=
  [N.of_nat (97 + i mod 26); N.of_nat (97 + (i / 26) mod 26)].

Fixpoint sample_words (n : nat) : list str :=
  match n with
  | O => []
  | S n' => sample_words n' ++ [sample_word n']
  end.

(** A text of [n] two-letter words separated by single spaces. *)
Definition sample_text (n : nat) : str := join space (sample_words n).

(** A word, as [split] produces them: not empty, and free of white space. *)
Definition is_word (w : str) : Prop :=
  w <> [] /\ Forall (fun c => isspace c = false) w.

(** [above L m e]: the mantissa [m] at exponent [e] is positive and stands
    for a value of at least [2^L]. *)
Definition above (L m e : Z) : Prop := 0 < m /\ (e <= L -> 2 ^ (L - e) <= m).

(** A positive finite float of at least [2^L] whose mantissa fits 53 bits. *)
Definition float_above (L : Z) (f : spec_float) : Prop :=
  exists m e, f = S754_finite false m e /\ above L (Z.pos m) e /\ Z.pos m < 2 ^ 53.

(** Whether the estimate of [n] words is at most 60 seconds. *)
Definition estimate_at_most_60 (n : nat) : bool :=
  match int_truediv_float (Z.of_nat n) two_and_a_half with
  | Ok f => SFleb f (float_lit 60)
  | Raise _ => false
  end.

(** Whether the estimate of [n] words is above 60 seconds. *)
Definition estimate_exceeds_60 (n : nat) : bool :=
  match int_truediv_float (Z.of_nat n) two_and_a_half with
  | Ok f => SFltb (float_lit 60) f
  | Raise _ => false
  end.

(** *** JSON on the wire

    [requests] and Flask both write JSON with every character outside ASCII
    escaped, an astral one as the escapes of its surrogate pair; the decoder
    joins an escaped high surrogate followed by an escaped low one into one
    code point.  So a value that crosses the wire keeps everything but its
    adjacent surrogate pairs. *)

Definition is_high_surrogate (c : N) : bool := ((55296 <=? c) && (c <=? 56319))%N.
Definition is_low_surrogate (c : N) : bool := ((56320 <=? c) && (c <=? 57343))%N.
Definition is_surrogate (c : N) : bool := is_high_surrogate c || is_low_surrogate c.

(** A [str] after [json.loads(json.dumps(s))]. *)
Fixpoint join_surrogates (s : str) : str :=
  match s with
  | c1 :: ((c2 :: rest) as tail) =>
      if is_high_surrogate c1 && is_low_surrogate c2
      then (65536 + (c1 - 55296) * 1024 + (c2 - 56320))%N :: join_surrogates rest
      else c1 :: join_surrogates tail
  | _ => s
  end.

(** A JSON value after encoding and decoding.  Numbers, booleans and [null]
    come back as they were (a finite [float] is written with [repr], which
    reads back exactly); the keys of the model are UTF-8 and hold no
    surrogates. *)
Fixpoint wire (v : json) : json :=
  match v with
  | JStr s => JStr (join_surrogates s)
  | JArr l => JArr (map wire l)
  | JObj d => JObj (wire <$> d)
  | _ => v
  end.

Definition float_is_finite (f : spec_float) : bool :=
  match f with
  | S754_zero _ | S754_finite _ _ _ => true
  | _ => false
  end.

(** Whether a value holds a NaN or an infinity, which [requests] refuses to
    encode ([allow_nan=False]). *)
Fixpoint has_nonfinite (v : json) : bool :=
  match v with
  | JFloat f => negb (float_is_finite f)
  | JArr l => existsb has_nonfinite l
  | JObj d => map_fold (fun _ x acc => has_nonfinite x || acc) false d
  | _ => false
  end.

(** A text of Unicode scalar values: no surrogate code point in it. *)
Definition well_formed (s : str) : Prop := Forall (fun c => is_surrogate c = false) s.

(** *** The agent's callback and the deployed service *)

(** What [before_tts_cb] receives: a whole [str], or a stream of chunks. *)
Inductive text_source : Type :=
  | Whole (text : str)
  | Stream (chunks : list str).

(** [stream_to_text(stream)]: the chunks, concatenated. *)
Definition stream_to_text (chunks : list str) : str := concat chunks.

(** A [requests.Response]: its status code and what [.json()] gives, a
    decoded body or the exception of a body that is no JSON. *)
Record http_response : Type := HttpResponse {
  status_code : Z;
  payload : outcome json
}.

(** [response.ok]: false for the statuses [raise_for_status] raises on. *)
Definition response_ok (r : http_response) : bool :=
  negb ((400 <=? status_code r) && (status_code r <? 600)).

Definition FLASK_API_URL : string :=
  "https://7f01-27-4-44-174.ngrok-free.app/validate_audio".

(** [requests.post(url, json=body)]: a response, or the exception of a
    request that got none. *)
Definition transport : Type := string -> json -> outcome http_response.

(** [validate_text_before_tts(agent, text_stream)]; [agent] is not used. *)
Definition validate_text_before_tts (post : transport) (text_stream : text_source)
  : outcome json :=
  let text :=
    match text_stream with
    | Whole s => s
    | Stream chunks => stream_to_text chunks
    end in
  estimated_length ← calculate_audio_duration text;
  response ← post FLASK_API_URL
               (JObj (<["length" := JFloat estimated_length]> {[ "text" := JStr text ]}));
  if response_ok response
  then
    decoded ← payload response;
    match decoded with
    | JObj d => Ok (default (JStr text) (d !! "message"))
    | _ => Raise AttributeError
    end
  else Ok (JStr text).

(** The text a source carries. *)
Definition source_text (text_stream : text_source) : str :=
  match text_stream with
  | Whole s => s
  | Stream chunks => stream_to_text chunks
  end.

(** What Flask sends for the outcome of a view, as [requests] reads it: the
    view's status with its JSON body decoded from the wire, or status 500
    with a body that is no JSON when the view raised. *)
Definition flask_response (r : outcome response) : http_response :=
  match r with
  | Ok resp => HttpResponse (status resp) (Ok (wire (JObj (body resp))))
  | Raise _ => HttpResponse 500 (Raise ValueError)
  end.

(** [requests.post] against [app.py] served at [FLASK_API_URL] with a
    summarizer [o]: the request is refused before it is sent when it holds a
    NaN or an infinity; otherwise its JSON crosses the wire and reaches the
    handler as [request.json]; any other address is not routed. *)
Definition gate_service (o : oracle) : transport :=
  fun url request_json =>
    if has_nonfinite request_json then Raise (External "InvalidJSONError")
    else if String.eqb url FLASK_API_URL
    then Ok (flask_response
               (snd (run o (handle_audio_validation (wire request_json)))))
    else Ok (HttpResponse 404 (Raise ValueError)).

(** The room a word list takes in a text: every word with one separator. *)
Fixpoint weight (ws : list str) : nat :=
  match ws with
  | [] => 0
  | w :: ws' => S (length w) + weight ws'
  end.

(** * Properties *)

(** ** Binary64 arithmetic

    Facts about the rounding of [SpecFloat]: a magnitude bound that rounding
    preserves, which keeps conversions and quotients finite, and the cases in
    which rounding is exact. *)

Module Binary64.

Ltac fexp_arith := unfold fexp, SpecFloat.emin, prec, emax; lia.

Lemma leb_emax (e : Z) : e <= 971 -> (e <=? emax - prec) = true.
Proof. intros H. apply Z.leb_le. unfold emax, prec. lia. Qed.

Lemma digits2_pos_size (p : positive) : digits2_pos p = Pos.size p.
Proof. induction p as [p IH|p IH|]; cbn; [rewrite IH..|]; reflexivity. Qed.

Lemma digits2_pos_le (p : positive) : 2 ^ (Z.pos (digits2_pos p) - 1) <= Z.pos p.
Proof.
  rewrite digits2_pos_size. pose proof (Pos.size_le p) as H.
  assert (2 * 2 ^ (Z.pos (Pos.size p) - 1) = 2 ^ Z.pos (Pos.size p)) as E.
  { rewrite <- Z.pow_succ_r by lia. f_equal. lia. }
  assert (2 ^ Z.pos (Pos.size p) <= 2 * Z.pos p); [|lia].
  change 2 with (Z.pos 2) at 1. rewrite <- Pos2Z.inj_pow. lia.
Qed.

Lemma Zdigits2_bound (m k : Z) : 0 <= m < 2 ^ k -> 0 <= k -> Zdigits2 m <= k.
Proof.
  intros [Hm Hlt] Hk. destruct m as [|p|p]; cbn; [lia| |lia].
  pose proof (digits2_pos_le p) as Hle.
  assert (Z.pos (digits2_pos p) - 1 < k); [|lia].
  apply (Z.pow_lt_mono_r_iff 2); lia.
Qed.

Lemma digits2_pos_iter_xO (d m : positive) :
  digits2_pos (Pos.iter xO m d) = (digits2_pos m + d)%positive.
Proof.
  induction d as [|d IH] using Pos.peano_ind.
  - cbn. lia.
  - rewrite Pos.iter_succ. cbn [digits2_pos]. rewrite IH. lia.
Qed.

Lemma iter_xO_pow (d m : positive) :
  Z.pos (Pos.iter xO m d) = Z.pos m * 2 ^ Z.pos d.
Proof.
  induction d as [|d IH] using Pos.peano_ind.
  - cbn. lia.
  - rewrite Pos.iter_succ, Pos2Z.inj_xO, IH, Pos2Z.inj_succ, Z.pow_succ_r by lia.
    lia.
Qed.

Lemma pow2_xO (p : positive) : 2 ^ Z.pos p~0 = 2 ^ Z.pos p * 2 ^ Z.pos p.
Proof. rewrite <- Z.pow_add_r by lia. f_equal. lia. Qed.

Lemma pow2_xI (p : positive) : 2 ^ Z.pos p~1 = 2 * (2 ^ Z.pos p * 2 ^ Z.pos p).
Proof.
  rewrite <- Z.pow_add_r, <- Z.pow_succ_r by lia. f_equal. lia.
Qed.

(** *** Shifting right *)

Lemma shr_m_of_loc (m : Z) (l : location) : shr_m (shr_record_of_loc m l) = m.
Proof. destruct l as [|[| |]]; reflexivity. Qed.

Lemma shr_1_div (mrs : shr_record) :
  0 <= shr_m mrs -> shr_m (shr_1 mrs) = shr_m mrs / 2.
Proof.
  destruct mrs as [m r s]. cbn [shr_m]. intros Hm.
  destruct m as [|[p|p|]|]; cbn [shr_1 shr_m]; try reflexivity; try lia.
  - apply (Z.div_unique _ _ _ 1); lia.
  - apply (Z.div_unique _ _ _ 0); lia.
Qed.

Lemma iter_shr_1_div (p : positive) (mrs : shr_record) :
  0 <= shr_m mrs ->
  shr_m (SpecFloat.iter_pos shr_1 p mrs) = shr_m mrs / 2 ^ Z.pos p.
Proof.
  revert mrs. induction p as [p IH|p IH|]; intros mrs Hm; cbn [SpecFloat.iter_pos].
  - assert (0 <= shr_m (shr_1 mrs)) as H1
      by (rewrite shr_1_div by assumption; apply Z.div_pos; lia).
    assert (0 <= shr_m (SpecFloat.iter_pos shr_1 p (shr_1 mrs))) as H2
      by (rewrite IH by assumption; apply Z.div_pos; lia).
    rewrite IH, IH, shr_1_div by assumption.
    rewrite !Z.div_div by lia. f_equal. rewrite pow2_xI. lia.
  - assert (0 <= shr_m (SpecFloat.iter_pos shr_1 p mrs)) as H2
      by (rewrite IH by assumption; apply Z.div_pos; lia).
    rewrite IH, IH by assumption.
    rewrite !Z.div_div by lia. f_equal. rewrite pow2_xO. lia.
  - rewrite shr_1_div by assumption. reflexivity.
Qed.

Lemma iter_shr_1_exact (k m : positive) :
  SpecFloat.iter_pos shr_1 k (Build_shr_record (Z.pos (Pos.iter xO m k)) false false)
  = Build_shr_record (Z.pos m) false false.
Proof.
  revert m. induction k as [k IH|k IH|]; intros m;
    cbn [SpecFloat.iter_pos Pos.iter shr_1 orb].
  - rewrite IH, IH. reflexivity.
  - rewrite IH, IH. reflexivity.
  - reflexivity.
Qed.

(** *** Rounding keeps magnitudes bounded *)

Lemma fexp_le (B x : Z) : -1074 <= B -> x <= B -> fexp prec emax x <= B.
Proof. fexp_arith. Qed.

Lemma shr_fexp_within (B m e : Z) (l : location) :
  -1074 <= B -> within B m e ->
  within B (shr_m (fst (shr_fexp prec emax m e l))) (snd (shr_fexp prec emax m e l)).
Proof.
  intros HB (Hm & He & Hlt). unfold shr_fexp, shr.
  assert (fexp prec emax (Zdigits2 m + e) <= B) as Hf.
  { apply fexp_le; [assumption|].
    pose proof (Zdigits2_bound m (B - e) (conj Hm Hlt)). lia. }
  destruct (fexp prec emax (Zdigits2 m + e) - e) as [|p|p] eqn:En;
    cbn [fst snd]; try (rewrite shr_m_of_loc; repeat split; assumption).
  rewrite iter_shr_1_div by (rewrite shr_m_of_loc; assumption).
  rewrite shr_m_of_loc. repeat split.
  - apply Z.div_pos; lia.
  - lia.
  - apply Z.div_lt_upper_bound; [lia|].
    rewrite <- Z.pow_add_r by lia.
    replace (Z.pos p + (B - (e + Z.pos p))) with (B - e) by lia. assumption.
Qed.

Lemma round_nearest_even_within (B m e : Z) (l : location) :
  within B m e -> within (B + 1) (round_nearest_even m l) e.
Proof.
  intros (Hm & He & Hlt).
  assert (2 ^ (B + 1 - e) = 2 * 2 ^ (B - e)) as E.
  { rewrite <- Z.pow_succ_r by lia. f_equal. lia. }
  unfold round_nearest_even.
  destruct l as [|[| |]]; [| destruct (Z.even m) | |]; repeat split; lia.
Qed.

Lemma binary_round_aux_within (B m e : Z) (s : bool) (l : location) :
  -1074 <= B -> B + 1 <= 971 -> within B m e ->
  binary_round_aux prec emax s m e l = S754_zero s \/
  exists m' e', binary_round_aux prec emax s m e l = S754_finite s m' e'
                /\ within (B + 1) (Z.pos m') e'.
Proof.
  intros HB HB' Hw. unfold binary_round_aux.
  pose proof (shr_fexp_within B m e l HB Hw) as H1.
  destruct (shr_fexp prec emax m e l) as [mrs' e'] eqn:E1. cbn [fst snd] in H1.
  pose proof (round_nearest_even_within B _ _ (loc_of_shr_record mrs') H1) as H2.
  pose proof (shr_fexp_within (B + 1) _ _ loc_Exact ltac:(lia) H2) as H3.
  destruct (shr_fexp prec emax _ e' loc_Exact) as [mrs'' e''] eqn:E2.
  cbn [fst snd] in H3.
  destruct (shr_m mrs'') as [|p|p] eqn:Em.
  - left. reflexivity.
  - right. exists p, e''. split; [|assumption].
    destruct H3 as (_ & He & _).
    rewrite leb_emax by lia. reflexivity.
  - destruct H3 as (Hneg & _). lia.
Qed.

Lemma shl_align_within (B : Z) (mx : positive) (ex ex' : Z) :
  within B (Z.pos mx) ex ->
  within B (Z.pos (fst (shl_align mx ex ex'))) (snd (shl_align mx ex ex')).
Proof.
  intros (Hm & He & Hlt). unfold shl_align.
  destruct (ex' - ex) as [|d|d] eqn:Ed; cbn [fst snd];
    try (repeat split; assumption).
  rewrite iter_xO_pow.
  repeat split; [lia|lia|].
  replace (B - ex') with (B - ex + Z.pos d) by lia.
  rewrite Z.pow_add_r by lia.
  apply Z.mul_lt_mono_pos_r; [lia|assumption].
Qed.

Lemma float_of_int_within (B w : Z) :
  0 <= w < 2 ^ B -> 0 <= B -> B + 1 <= 971 ->
  exists f, float_of_int w = Ok f /\ float_within (B + 1) f.
Proof.
  intros [Hw Hlt] HB HB'. unfold float_of_int, binary_normalize.
  destruct w as [|p|p]; [| |lia].
  - exists (S754_zero false). split; [reflexivity|left; reflexivity].
  - unfold binary_round.
    assert (within B (Z.pos p) 0) as Hp
      by (repeat split; [lia|lia|rewrite Z.sub_0_r; assumption]).
    pose proof (shl_align_within B p 0
                  (fexp prec emax (Z.pos (digits2_pos p) + 0)) Hp) as Ha.
    destruct (shl_align p 0 _) as [mz ez]. cbn [fst snd] in Ha.
    destruct (binary_round_aux_within B (Z.pos mz) ez false loc_Exact
                ltac:(lia) HB' Ha) as [E|(m' & e' & E & Hw')]; rewrite E.
    + exists (S754_zero false). split; [reflexivity|left; reflexivity].
    + exists (S754_finite false m' e'). split; [reflexivity|].
      right. exists m', e'. split; [reflexivity|assumption].
Qed.

Lemma SFdiv_core_within (B : Z) (mx my : positive) (ex ey : Z) :
  within B (Z.pos mx) ex ->
  within (B - ey)
    (fst (fst (SFdiv_core_binary prec emax (Z.pos mx) ex (Z.pos my) ey)))
    (snd (fst (SFdiv_core_binary prec emax (Z.pos mx) ex (Z.pos my) ey))).
Proof.
  intros (Hm & He & Hlt). unfold SFdiv_core_binary.
  set (e' := Z.min _ (ex - ey)).
  assert (e' <= ex - ey) as He' by apply Z.le_min_r.
  set (m' := match ex - ey - e' with
             | 0 => Z.pos mx
             | Z.pos _ => Z.shiftl (Z.pos mx) (ex - ey - e')
             | Z.neg _ => 0
             end).
  assert (m' = Z.pos mx * 2 ^ (ex - ey - e')) as Em'.
  { subst m'. destruct (ex - ey - e') as [|s|s] eqn:Es; [cbn; lia| |lia].
    apply Z.shiftl_mul_pow2. lia. }
  destruct (Z.div_eucl m' (Z.pos my)) as [q r] eqn:Ed. cbn [fst snd].
  assert (q = m' / Z.pos my) as -> by (unfold Z.div; rewrite Ed; reflexivity).
  assert (0 <= m') as Hm' by (rewrite Em'; apply Z.mul_nonneg_nonneg; lia).
  repeat split.
  - apply Z.div_pos; lia.
  - lia.
  - apply (Z.le_lt_trans _ m').
    + apply Z.div_le_upper_bound; [lia|]. nia.
    + rewrite Em'.
      replace (B - ey - e') with (B - ex + (ex - ey - e')) by lia.
      rewrite Z.pow_add_r by lia.
      apply Z.mul_lt_mono_pos_r; [|assumption].
      apply Z.pow_pos_nonneg; lia.
Qed.

Lemma SFdiv_within (B : Z) (x : spec_float) (my : positive) (ey : Z) :
  float_within B x -> -1074 <= B - ey -> B - ey + 1 <= 971 ->
  float_within (B - ey + 1) (SFdiv prec emax x (S754_finite false my ey)).
Proof.
  intros [->|(mx & ex & -> & Hx)] Hlo Hhi; [left; reflexivity|].
  unfold SFdiv. pose proof (SFdiv_core_within B mx my ex ey Hx) as Hc.
  destruct (SFdiv_core_binary prec emax (Z.pos mx) ex (Z.pos my) ey)
    as [[mz ez] lz]. cbn [fst snd] in Hc. cbn [xorb].
  destruct (binary_round_aux_within (B - ey) mz ez false lz Hlo Hhi Hc)
    as [E|(m' & e' & E & Hw')]; rewrite E.
  - left. reflexivity.
  - right. exists m', e'. split; [reflexivity|assumption].
Qed.

Lemma float_within_nonneg_finite (B : Z) (f : spec_float) :
  float_within B f -> nonneg_finite f.
Proof.
  intros [->|(m & e & -> & _)]; [left; reflexivity|right; eauto].
Qed.

(** *** Rounding of canonical mantissas is exact *)

Lemma shr_fexp_canonical (m : positive) (e : Z) :
  fexp prec emax (Z.pos (digits2_pos m) + e) <= e ->
  shr_fexp prec emax (Z.pos m) e loc_Exact
  = (Build_shr_record (Z.pos m) false false, e).
Proof.
  intros H. unfold shr_fexp, shr. cbn [Zdigits2 shr_record_of_loc].
  destruct (fexp prec emax (Z.pos (digits2_pos m) + e) - e) eqn:E;
    [reflexivity|lia|reflexivity].
Qed.

Lemma shr_fexp_shift (m k : positive) (e : Z) :
  fexp prec emax (Z.pos (digits2_pos m) + e) = e ->
  shr_fexp prec emax (Z.pos (Pos.iter xO m k)) (e - Z.pos k) loc_Exact
  = (Build_shr_record (Z.pos m) false false, e).
Proof.
  intros H. unfold shr_fexp, shr. cbn [Zdigits2 shr_record_of_loc].
  rewrite digits2_pos_iter_xO.
  replace (Z.pos (digits2_pos m + k) + (e - Z.pos k))
    with (Z.pos (digits2_pos m) + e) by lia.
  rewrite H. replace (e - (e - Z.pos k)) with (Z.pos k) by lia.
  rewrite iter_shr_1_exact. f_equal. lia.
Qed.

Lemma binary_round_aux_canonical (s : bool) (m : positive) (e : Z) :
  fexp prec emax (Z.pos (digits2_pos m) + e) <= e -> e <= 971 ->
  binary_round_aux prec emax s (Z.pos m) e loc_Exact = S754_finite s m e.
Proof.
  intros H He. unfold binary_round_aux.
  rewrite (shr_fexp_canonical m e H). cbn [shr_m loc_of_shr_record round_nearest_even].
  rewrite (shr_fexp_canonical m e H). cbn [shr_m].
  rewrite leb_emax by lia. reflexivity.
Qed.

Lemma binary_round_aux_shift (s : bool) (m k : positive) (e : Z) :
  fexp prec emax (Z.pos (digits2_pos m) + e) = e -> e <= 971 ->
  binary_round_aux prec emax s (Z.pos (Pos.iter xO m k)) (e - Z.pos k) loc_Exact
  = S754_finite s m e.
Proof.
  intros H He. unfold binary_round_aux.
  rewrite (shr_fexp_shift m k e H). cbn [shr_m loc_of_shr_record round_nearest_even].
  rewrite (shr_fexp_canonical m e) by lia. cbn [shr_m].
  rewrite leb_emax by lia. reflexivity.
Qed.

(** Below [2^53] the conversion to [float] is exact: the mantissa has 53 bits
    and, at its exponent, stands for the integer itself. *)
Lemma float_of_int_exact (p : positive) :
  Z.pos p < 2 ^ 53 ->
  exists mz ez,
    float_of_int (Z.pos p) = Ok (S754_finite false mz ez)
    /\ Z.pos (digits2_pos mz) = 53 /\ -52 <= ez <= 0
    /\ Z.pos mz = Z.pos p * 2 ^ (- ez).
Proof.
  intros Hp. unfold float_of_int, binary_normalize, binary_round, shl_align.
  pose proof (Zdigits2_bound (Z.pos p) 53 ltac:(lia) ltac:(lia)) as Hd.
  cbn [Zdigits2] in Hd.
  assert (fexp prec emax (Z.pos (digits2_pos p) + 0) = Z.pos (digits2_pos p) - 53) as ->
    by fexp_arith.
  destruct (Z.pos (digits2_pos p) - 53 - 0) as [|k|k] eqn:Ek; [|lia|].
  - exists p, 0. rewrite binary_round_aux_canonical;
      [ | fexp_arith | lia ].
    repeat split; lia.
  - exists (Pos.iter xO p k), (Z.pos (digits2_pos p) - 53).
    assert (Z.pos (digits2_pos (Pos.iter xO p k)) = 53) as Hk
      by (rewrite digits2_pos_iter_xO; lia).
    rewrite binary_round_aux_canonical;
      [ | rewrite Hk; fexp_arith | lia ].
    repeat split; try lia.
    rewrite iter_xO_pow. do 2 f_equal. lia.
Qed.

Lemma half_product_exact (w : Z) :
  0 < w < 2 ^ 53 ->
  (int_mul_float w half ≫= int_of_float) = Ok (w / 2).
Proof.
  intros [Hw Hlt]. destruct w as [|p|p]; try lia.
  destruct (float_of_int_exact p Hlt) as (mz & ez & Ef & Hd & He & Hm).
  unfold int_mul_float. rewrite Ef. cbn [mbind outcome_bind obind].
  unfold half, SFmul. cbn [xorb].
  assert ((mz * 4503599627370496)%positive = Pos.iter xO mz 52) as ->.
  { apply Pos2Z.inj. rewrite iter_xO_pow, Pos2Z.inj_mul. reflexivity. }
  replace (ez + -53) with (ez - 1 - 52) by lia.
  rewrite binary_round_aux_shift;
    [ | rewrite Hd; fexp_arith | lia ].
  cbn [int_of_float]. f_equal.
  rewrite Z.shiftl_div_pow2 by lia. rewrite Hm.
  replace (- (ez - 1)) with (1 + - ez) by lia.
  rewrite Z.pow_add_r by lia. change (2 ^ 1) with 2.
  apply Z.div_mul_cancel_r; [lia|]. apply Z.pow_nonzero; lia.
Qed.

(** *** Comparison *)

Lemma SFcompare_swap (x y : spec_float) (c : comparison) :
  SFcompare x y = Some c -> SFcompare y x = Some (CompOpp c).
Proof.
  destruct x as [sx|sx| |sx mx ex], y as [sy|sy| |sy my ey]; cbn;
    try discriminate;
    try (intros [= <-]; repeat match goal with b : bool |- _ => destruct b end;
         reflexivity).
  intros [= <-]. f_equal.
  destruct sx, sy; try reflexivity;
    rewrite (Z.compare_antisym ey ex);
    destruct (ey ?= ex); cbn; try reflexivity;
    fold (Pos.compare mx my); fold (Pos.compare my mx);
    rewrite (Pos.compare_antisym mx my);
    try rewrite CompOpp_involutive; reflexivity.
Qed.

Lemma SFltb_not_SFleb (x y : spec_float) :
  SFltb x y = true -> SFleb y x = false.
Proof.
  unfold SFltb, SFleb. destruct (SFcompare x y) as [c|] eqn:E; [|discriminate].
  rewrite (SFcompare_swap _ _ _ E). destruct c; cbn; congruence.
Qed.

End Binary64.

Import Binary64.

(** ** Word counts *)

Lemma split_from_length (s word : str) :
  (length (split_from s word) <= length s + pending word)%nat.
Proof.
  revert word. induction s as [|c s IH]; intros word; cbn [split_from].
  - destruct word; cbn; lia.
  - destruct (isspace c).
    + destruct word as [|a word]; cbn [length pending].
      * specialize (IH []). cbn in IH. lia.
      * specialize (IH []). cbn in IH. lia.
    + specialize (IH (c :: word)). cbn [length pending] in *.
      destruct word; cbn [pending]; lia.
Qed.

Lemma split_length (s : str) : (length (split s) <= length s)%nat.
Proof. pose proof (split_from_length s []) as H. cbn in H. unfold split. lia. Qed.

(** ** The duration estimate *)

Lemma words_per_second_value : int_truediv_int 150 60 = Ok two_and_a_half.
Proof. reflexivity. Qed.

Lemma calculate_audio_duration_unfold (text : str) :
  calculate_audio_duration text
  = int_truediv_float (Z.of_nat (length (split text))) two_and_a_half.
Proof.
  unfold calculate_audio_duration. rewrite words_per_second_value. reflexivity.
Qed.

(** C9: the estimate of a text is [word_count / 2.5], the binary64 quotient
    of the number of white-space separated words by the rate, which is exactly
    2.5; it is defined for every string, it is a finite float that is zero or
    positive, and it is zero for the empty string. *)
Theorem calculate_audio_duration_spec (text : str) :
  Z.of_nat (length text) <= PY_SSIZE_T_MAX ->
  int_truediv_int 150 60 = Ok two_and_a_half
  /\ calculate_audio_duration text
     = int_truediv_float (Z.of_nat (length (split text))) two_and_a_half
  /\ (exists fw f,
        float_of_int (Z.of_nat (length (split text))) = Ok fw
        /\ calculate_audio_duration text = Ok f
        /\ f = SFdiv prec emax fw two_and_a_half
        /\ nonneg_finite f)
  /\ calculate_audio_duration [] = Ok (S754_zero false).
Proof.
  intros Hlen. split; [reflexivity|]. split; [apply calculate_audio_duration_unfold|].
  split; [|reflexivity].
  rewrite calculate_audio_duration_unfold. unfold int_truediv_float.
  pose proof (split_length text) as Hs.
  destruct (float_of_int_within 63 (Z.of_nat (length (split text))))
    as (fw & Efw & Hfw); [unfold PY_SSIZE_T_MAX in Hlen; lia|lia|lia|].
  exists fw, (SFdiv prec emax fw two_and_a_half).
  rewrite Efw. cbn. repeat split; try reflexivity.
  apply (float_within_nonneg_finite (64 - -51 + 1)).
  apply (SFdiv_within 64 fw); [assumption|lia|lia].
Qed.

Lemma calculate_audio_duration_spec_witness :
  let text := sample_text 151 in
  int_truediv_int 150 60 = Ok two_and_a_half
  /\ calculate_audio_duration text
     = int_truediv_float (Z.of_nat (length (split text))) two_and_a_half
  /\ (exists fw f,
        float_of_int (Z.of_nat (length (split text))) = Ok fw
        /\ calculate_audio_duration text = Ok f
        /\ f = SFdiv prec emax fw two_and_a_half
        /\ nonneg_finite f)
  /\ calculate_audio_duration [] = Ok (S754_zero false).
Proof.
  intros text. apply (calculate_audio_duration_spec text).
  vm_compute. discriminate.
Defined.

(** ** The middle trim *)

Lemma slice_inside {A} (l : list A) (start stop : Z) :
  0 <= start <= stop -> stop <= Z.of_nat (length l) ->
  slice l start stop = take (Z.to_nat (stop - start)) (drop (Z.to_nat start) l)
  /\ Z.of_nat (length (slice l start stop)) = stop - start.
Proof.
  intros [H0 H1] H2. unfold slice, slice_bound.
  destruct (Z.ltb_spec start 0); [lia|]. destruct (Z.ltb_spec stop 0); [lia|].
  rewrite !Z.min_l by lia. split; [reflexivity|].
  rewrite length_take, length_drop. lia.
Qed.

Lemma half_floor (w : Z) : Qfloor (inject_Z w * (1 # 2))%Q = w / 2.
Proof. unfold Qfloor, Qmult, inject_Z. cbn. rewrite Z.mul_1_r. reflexivity. Qed.

Lemma trim_short (text : str) (ratio : spec_float) :
  Z.of_nat (length (split text)) <= 150 -> trim_text_middle text ratio = Ok text.
Proof.
  intros H. unfold trim_text_middle.
  destruct (Z.leb_spec (Z.of_nat (length (split text))) 150); [reflexivity|lia].
Qed.

Lemma trim_long (text : str) :
  let w := Z.of_nat (length (split text)) in
  150 < w < 2 ^ 53 ->
  trim_text_middle text half
  = Ok (join space (slice (split text) ((w - w / 2) / 2) ((w - w / 2) / 2 + w / 2))).
Proof.
  intros w [Hlo Hhi]. unfold trim_text_middle. fold w.
  destruct (Z.leb_spec w 150); [lia|].
  pose proof (half_product_exact w ltac:(lia)) as Hp.
  destruct (int_mul_float w half) as [product|e]; cbn in Hp |- *; [|discriminate].
  rewrite Hp. reflexivity.
Qed.

(** C6: for a text of [w > 150] words the trim keeps the words at positions
    [start <= i < stop], joined by single spaces, where
    [trim_size = floor(w * 0.5)], [start = floor((w - trim_size) / 2)] and
    [stop = start + trim_size]; the window lies inside the text and holds
    [trim_size] words; for [w = 300] it is [75, 225), 150 words. *)
Theorem middle_trim_window (text : str) :
  let words := split text in
  let w := Z.of_nat (length words) in
  150 < w -> w < 2 ^ 53 ->
  let trim_size := Qfloor (inject_Z w * (1 # 2))%Q in
  let start := (w - trim_size) / 2 in
  let stop := start + trim_size in
  trim_text_middle text half = Ok (join (str_of_string " ") (slice words start stop))
  /\ slice words start stop = take (Z.to_nat trim_size) (drop (Z.to_nat start) words)
  /\ 0 <= start /\ stop <= w
  /\ Z.of_nat (length (slice words start stop)) = trim_size
  /\ (w = 300 -> start = 75 /\ stop = 225 /\ trim_size = 150).
Proof.
  intros words w Hlo Hhi trim_size start stop.
  assert (trim_size = w / 2) as Ets by apply half_floor.
  assert (0 <= start <= stop /\ stop <= w) as (Hs & He).
  { subst stop start. rewrite Ets. clear Ets. Z.div_mod_to_equations. lia. }
  destruct (slice_inside words start stop Hs He) as [Esl Elen].
  replace (stop - start) with trim_size in Esl, Elen by (subst stop; lia).
  split; [|split; [exact Esl|split; [lia|split; [lia|split; [exact Elen|]]]]].
  - subst stop start. rewrite Ets. apply (trim_long text). fold words w. lia.
  - intros E. subst stop start. rewrite Ets, E. repeat split; reflexivity.
Qed.

Lemma middle_trim_window_witness :
  let text := sample_text 300 in
  let words := split text in
  let w := Z.of_nat (length words) in
  let trim_size := Qfloor (inject_Z w * (1 # 2))%Q in
  let start := (w - trim_size) / 2 in
  let stop := start + trim_size in
  trim_text_middle text half = Ok (join (str_of_string " ") (slice words start stop))
  /\ slice words start stop = take (Z.to_nat trim_size) (drop (Z.to_nat start) words)
  /\ 0 <= start /\ stop <= w
  /\ Z.of_nat (length (slice words start stop)) = trim_size
  /\ (w = 300 -> start = 75 /\ stop = 225 /\ trim_size = 150).
Proof.
  intros text. apply (middle_trim_window text); vm_compute; reflexivity.
Defined.

(** With the default ratio the trim raises on no text whose word count a
    binary64 holds exactly, so every such request on the reduce path reaches
    the summarizer. *)
Lemma trim_text_middle_total (text : str) :
  Z.of_nat (length (split text)) < 2 ^ 53 ->
  exists trimmed, trim_text_middle text half = Ok trimmed.
Proof.
  intros Hhi.
  destruct (Z.le_gt_cases (Z.of_nat (length (split text))) 150) as [Hle|Hgt].
  - exists text. apply trim_short. exact Hle.
  - rewrite (trim_long text) by lia. eauto.
Qed.

(** ** Comparing durations with the threshold *)

Lemma at_most_le_int (v : json) (n : Z) : at_most v n -> le_int v n = Ok true.
Proof.
  destruct v; cbn; try contradiction.
  - intros H. f_equal. lia.
  - intros H. f_equal. exact H.
Qed.

Lemma exceeds_le_int (v : json) (n : Z) : exceeds v n -> le_int v n = Ok false.
Proof.
  destruct v; cbn; try contradiction.
  - intros H. f_equal. lia.
  - intros H. f_equal. apply SFltb_not_SFleb. exact H.
Qed.

(** ** The handler, case by case *)

Lemma request_data_obj (d : gmap string json) : request_data (JObj d) = Ok d.
Proof.
  unfold request_data. cbn [truthy].
  case_bool_decide as H; cbn [negb]; [subst|]; reflexivity.
Qed.

Lemma truthy_str (s : str) : s <> [] -> truthy (JStr s) = true.
Proof. intros H. cbn. case_bool_decide; [contradiction|reflexivity]. Qed.

Lemma handle_data (request_json : json) (d : gmap string json) :
  request_data request_json = Ok d ->
  handle_audio_validation request_json =
  let text := default (JStr []) (d !! "text") in
  let length := default (JInt 0) (d !! "length") in
  if negb (truthy text) then Return invalid_input
  else
    short ← lift (le_int length 60);
    if short : bool
    then Return (pass_through text)
    else
      s ← lift (as_str text);
      trimmed_text ← lift (trim_text_middle s half);
      results ← summarizer trimmed_text 100 50 false;
      after_summary results.
Proof.
  intros H. unfold handle_audio_validation. rewrite H. reflexivity.
Qed.

Lemma handle_invalid (request_json : json) (d : gmap string json) :
  request_data request_json = Ok d ->
  d !! "text" = None \/ d !! "text" = Some (JStr []) ->
  handle_audio_validation request_json = Return invalid_input.
Proof.
  intros Hd Ht. rewrite (handle_data _ _ Hd).
  destruct Ht as [-> | ->]; reflexivity.
Qed.

Lemma handle_short (d : gmap string json) (text : str) :
  d !! "text" = Some (JStr text) -> text <> [] ->
  le_int (default (JInt 0) (d !! "length")) 60 = Ok true ->
  handle_audio_validation (JObj d) = Return (pass_through (JStr text)).
Proof.
  intros Ht Hne Hle. rewrite (handle_data _ _ (request_data_obj d)).
  rewrite Ht. cbn [default from_option id]. cbv zeta. rewrite (truthy_str _ Hne), Hle. reflexivity.
Qed.

Lemma handle_long (d : gmap string json) (text trimmed : str) :
  d !! "text" = Some (JStr text) -> text <> [] ->
  le_int (default (JInt 0) (d !! "length")) 60 = Ok false ->
  trim_text_middle text half = Ok trimmed ->
  handle_audio_validation (JObj d) =
  Summarizer (summarize_call trimmed) after_summary.
Proof.
  intros Ht Hne Hle Htrim. rewrite (handle_data _ _ (request_data_obj d)).
  rewrite Ht. cbn [default from_option id]. cbv zeta. rewrite (truthy_str _ Hne), Hle.
  cbn. rewrite Htrim. cbn. reflexivity.
Qed.

(** ** Running the handler *)

Lemma run_after_summary (o : oracle) (item : gmap string json)
    (rest : list (gmap string json)) (summary : json) :
  item !! "summary_text" = Some summary ->
  run o (after_summary (item :: rest)) = ([], Ok (jsonify {[ "message" := summary ]})).
Proof. intros H. unfold after_summary, getitem. cbn. rewrite H. reflexivity. Qed.

Lemma run_summarizer_calls (o : oracle) (c : summarizer_call) :
  fst (run o (Summarizer c after_summary)) = [c].
Proof.
  cbn. destruct (o c) as [results|e]; [|reflexivity].
  destruct (run o (after_summary results)) as [calls res] eqn:E. cbn.
  assert (calls = []) as ->; [|reflexivity].
  unfold after_summary in E.
  destruct results as [|item rest]; cbn in E; [congruence|].
  unfold getitem in E. destruct (item !! "summary_text"); cbn in E; congruence.
Qed.

Lemma run_summarizer_ok (o : oracle) (c : summarizer_call)
    (item : gmap string json) (rest : list (gmap string json)) (summary : json) :
  o c = Ok (item :: rest) -> item !! "summary_text" = Some summary ->
  run o (Summarizer c after_summary) = ([c], Ok (jsonify {[ "message" := summary ]})).
Proof.
  intros Ho Hs. cbn [run]. rewrite Ho, (run_after_summary _ _ _ _ Hs). reflexivity.
Qed.

Lemma run_summarizer_raise (o : oracle) (c : summarizer_call) (e : exn) :
  o c = Raise e -> run o (Summarizer c after_summary) = ([c], Raise e).
Proof. intros Ho. cbn [run]. rewrite Ho. reflexivity. Qed.

Lemma gate_unfold (o : oracle) (text d : json) :
  gate o text d
  = snd (run o (handle_audio_validation (JObj (<["text" := text]> {[ "length" := d ]})))).
Proof. reflexivity. Qed.

Lemma gate_body_text (text d : json) :
  (<["text" := text]> ({[ "length" := d ]} : gmap string json)) !! "text" = Some text.
Proof. apply lookup_insert_eq. Qed.

Lemma gate_body_length (text d : json) :
  (<["text" := text]> ({[ "length" := d ]} : gmap string json)) !! "length" = Some d.
Proof. rewrite lookup_insert_ne by discriminate. apply lookup_singleton_eq. Qed.

Lemma message_of_pass_through (text : json) :
  message_of (pass_through text) = Some text.
Proof. unfold message_of, pass_through, jsonify. cbn. apply lookup_singleton_eq. Qed.

Lemma response_message_neq (a b : json) :
  a <> b -> Ok (jsonify {[ "message" := a ]}) <> Ok (jsonify {[ "message" := b ]}).
Proof.
  intros Hne H. apply Hne.
  pose proof (f_equal (fun r : outcome response =>
                         match r with Ok resp => message_of resp | Raise _ => None end)
                      H) as E.
  cbv beta iota in E. fold (pass_through a) (pass_through b) in E.
  rewrite !message_of_pass_through in E. congruence.
Qed.

(** ** Invalid input and pass-through *)

(** C4: when the [text] field is missing or is the empty string, whatever the
    [length] field holds, the handler answers with status 400 and the body
    [{"error": "The 'text' field is missing."}], which carries no success
    message; the summarizer is not called. *)
Theorem missing_text_invalid_input (o : oracle) (request_json : json)
    (data : gmap string json) :
  request_data request_json = Ok data ->
  data !! "text" = None \/ data !! "text" = Some (JStr []) ->
  let resp :=
    Response 400 {[ "error" := JStr (str_of_string "The 'text' field is missing.") ]} in
  run o (handle_audio_validation request_json) = ([], Ok resp)
  /\ message_of resp = None.
Proof.
  intros Hd Ht resp. split; [|reflexivity].
  rewrite (handle_invalid _ _ Hd Ht). reflexivity.
Qed.

Lemma missing_text_invalid_input_witness :
  let resp :=
    Response 400 {[ "error" := JStr (str_of_string "The 'text' field is missing.") ]} in
  run (constant_summarizer (str_of_string "ok"))
      (handle_audio_validation (JObj {[ "length" := JInt 90 ]})) = ([], Ok resp)
  /\ message_of resp = None.
Proof.
  apply (missing_text_invalid_input _ _ {[ "length" := JInt 90 ]}).
  - apply request_data_obj.
  - left. apply lookup_singleton_ne. discriminate.
Defined.

(** C5: for a non-empty text and a duration of at most 60 seconds the handler
    answers with the text itself as the message, and the summarizer is never
    called. *)
Theorem pass_through_at_most_60 (o : oracle) (data : gmap string json)
    (text : str) (d : json) :
  data !! "text" = Some (JStr text) -> text <> [] ->
  data !! "length" = Some d -> at_most d 60 ->
  run o (handle_audio_validation (JObj data))
  = ([], Ok (jsonify {[ "message" := JStr text ]})).
Proof.
  intros Ht Hne Hl Hd.
  rewrite (handle_short data text Ht Hne); [reflexivity|].
  rewrite Hl. cbn. apply (at_most_le_int d 60 Hd).
Qed.

Lemma pass_through_at_most_60_witness :
  let text := str_of_string "good morning" in
  run (failing_summarizer "down")
      (handle_audio_validation (JObj (<["text" := JStr text]> {[ "length" := JInt 15 ]})))
  = ([], Ok (jsonify {[ "message" := JStr text ]})).
Proof.
  intros text.
  apply (pass_through_at_most_60 _ _ text (JInt 15)).
  - apply gate_body_text.
  - discriminate.
  - apply gate_body_length.
  - cbn. lia.
Defined.

(** C10: when the body has a non-empty text and no [length] field, the
    duration defaults to 0 and the text is returned unchanged; no error is
    signalled and the summarizer is not called. *)
Theorem missing_length_passes_through (o : oracle) (data : gmap string json)
    (text : str) :
  data !! "text" = Some (JStr text) -> text <> [] ->
  data !! "length" = None ->
  default (JInt 0) (data !! "length") = JInt 0 /\
  run o (handle_audio_validation (JObj data))
  = ([], Ok (jsonify {[ "message" := JStr text ]})).
Proof.
  intros Ht Hne Hl. split; [rewrite Hl; reflexivity|].
  rewrite (handle_short data text Ht Hne); [reflexivity|].
  rewrite Hl. reflexivity.
Qed.

Lemma missing_length_passes_through_witness :
  let text := str_of_string "good morning" in
  let data : gmap string json := {[ "text" := JStr text ]} in
  default (JInt 0) (data !! "length") = JInt 0 /\
  run (failing_summarizer "down") (handle_audio_validation (JObj data))
  = ([], Ok (jsonify {[ "message" := JStr text ]})).
Proof.
  intros text data.
  apply (missing_length_passes_through _ data text).
  - apply lookup_singleton_eq.
  - discriminate.
  - apply lookup_singleton_ne. discriminate.
Defined.

(** ** The reduce path

    A request with a non-empty text and a duration above 60 whose trim step
    produced [trimmed]. *)

Section ReducePath.

Variables (o : oracle) (data : gmap string json) (text trimmed : str) (d : json).

Hypothesis text_field : data !! "text" = Some (JStr text).
Hypothesis text_nonempty : text <> [].
Hypothesis length_field : data !! "length" = Some d.
Hypothesis long : exceeds d 60.
Hypothesis trim_result : trim_text_middle text half = Ok trimmed.

Lemma handle_reduce :
  handle_audio_validation (JObj data) = Summarizer (summarize_call trimmed) after_summary.
Proof.
  apply (handle_long data text trimmed text_field text_nonempty); [|exact trim_result].
  rewrite length_field. cbn. apply (exceeds_le_int d 60 long).
Qed.

(** C8: on the reduce path, with [trimmed] the text the trim step produced,
    the handler calls the summarizer exactly once, on [trimmed] with
    [max_length = 100], [min_length = 50] and [do_sample = False], and the
    summary text it answers with becomes the success message. *)
Theorem reduce_path_summarizes :
  fst (run o (handle_audio_validation (JObj data)))
  = [SummarizerCall trimmed 100 50 false]
  /\ forall item rest summary,
       o (SummarizerCall trimmed 100 50 false) = Ok (item :: rest) ->
       item !! "summary_text" = Some summary ->
       snd (run o (handle_audio_validation (JObj data)))
       = Ok (jsonify {[ "message" := summary ]}).
Proof.
  rewrite handle_reduce.
  unfold summarize_call. split.
  - apply run_summarizer_calls.
  - intros item rest summary Ho Hs.
    rewrite (run_summarizer_ok o _ item rest summary Ho Hs). reflexivity.
Qed.

(** C7: on the reduce path, when the summarizer raises, the handler run ends
    with that same exception: it is no success response, so neither the
    original text nor an empty string is returned in its place. *)
Theorem summarizer_error_surfaces (e : exn) :
  o (SummarizerCall trimmed 100 50 false) = Raise e ->
  snd (run o (handle_audio_validation (JObj data))) = Raise e
  /\ forall resp, snd (run o (handle_audio_validation (JObj data))) <> Ok resp.
Proof.
  intros Ho. rewrite handle_reduce.
  unfold summarize_call.
  rewrite (run_summarizer_raise o _ e Ho). split; [reflexivity|discriminate].
Qed.

End ReducePath.

Lemma reduce_path_summarizes_witness :
  let text := sample_text 300 in
  let trimmed := join space (take 150 (drop 75 (sample_words 300))) in
  let o := constant_summarizer (str_of_string "a summary") in
  let data : gmap string json :=
    <["text" := JStr text]> {[ "length" := JFloat (float_lit 120) ]} in
  fst (run o (handle_audio_validation (JObj data)))
  = [SummarizerCall trimmed 100 50 false]
  /\ forall item rest summary,
       o (SummarizerCall trimmed 100 50 false) = Ok (item :: rest) ->
       item !! "summary_text" = Some summary ->
       snd (run o (handle_audio_validation (JObj data)))
       = Ok (jsonify {[ "message" := summary ]}).
Proof.
  intros text trimmed o data.
  apply (reduce_path_summarizes o data text trimmed (JFloat (float_lit 120))).
  - apply gate_body_text.
  - discriminate.
  - apply gate_body_length.
  - reflexivity.
  - vm_compute. reflexivity.
Defined.

Lemma summarizer_error_surfaces_witness :
  let text := sample_text 300 in
  let o := failing_summarizer "timeout" in
  let data : gmap string json :=
    <["text" := JStr text]> {[ "length" := JInt 120 ]} in
  snd (run o (handle_audio_validation (JObj data))) = Raise (External "timeout")
  /\ forall resp, snd (run o (handle_audio_validation (JObj data))) <> Ok resp.
Proof.
  intros text o data.
  apply (summarizer_error_surfaces o data text
           (join space (take 150 (drop 75 (sample_words 300)))) (JInt 120)).
  - apply gate_body_text.
  - discriminate.
  - apply gate_body_length.
  - cbn. lia.
  - vm_compute. reflexivity.
  - reflexivity.
Defined.

(** ** Short texts on the reduce path *)

Lemma gate_constant_summarizer (s text : str) (d : json) :
  text <> [] -> Z.of_nat (length (split text)) <= 150 -> exceeds d 60 ->
  gate (constant_summarizer s) (JStr text) d = Ok (jsonify {[ "message" := JStr s ]}).
Proof.
  intros Hne Hw Hd. rewrite gate_unfold.
  rewrite (handle_reduce _ text text d);
    [ | apply gate_body_text | exact Hne | apply gate_body_length
      | exact Hd | apply trim_short; exact Hw ].
  rewrite (run_summarizer_ok _ _ {[ "summary_text" := JStr s ]} [] (JStr s));
    [reflexivity|reflexivity|apply lookup_singleton_eq].
Qed.

(** C1, as stated, fails: the two-letter text "hi" with a claimed duration of
    61 seconds has one word, and the handler answers with the summarizer's
    output, not with the text. *)
Lemma short_text_is_not_returned :
  let text := str_of_string "hi" in
  text <> [] /\ Z.of_nat (length (split text)) <= 150 /\ exceeds (JInt 61) 60 /\
  gate (constant_summarizer (str_of_string "ok")) (JStr text) (JInt 61)
  <> Ok (jsonify {[ "message" := JStr text ]}).
Proof.
  intros text. split; [discriminate|]. split; [vm_compute; discriminate|].
  split; [cbn; lia|].
  rewrite gate_constant_summarizer;
    [ | discriminate | vm_compute; discriminate | cbn; lia ].
  apply response_message_neq. discriminate.
Qed.

(** C1, amended: for a non-empty text of at most 150 words and a duration
    above 60, the trim step returns the text unchanged, and the handler calls
    the summarizer once, on that whole text with [max_length = 100],
    [min_length = 50] and [do_sample = False], and answers with the
    summarizer's output as the message. *)
Theorem short_text_is_summarized_untrimmed (o : oracle)
    (data : gmap string json) (text : str) (d : json) :
  data !! "text" = Some (JStr text) -> text <> [] ->
  Z.of_nat (length (split text)) <= 150 ->
  data !! "length" = Some d -> exceeds d 60 ->
  trim_text_middle text half = Ok text
  /\ fst (run o (handle_audio_validation (JObj data)))
     = [SummarizerCall text 100 50 false]
  /\ forall item rest summary,
       o (SummarizerCall text 100 50 false) = Ok (item :: rest) ->
       item !! "summary_text" = Some summary ->
       snd (run o (handle_audio_validation (JObj data)))
       = Ok (jsonify {[ "message" := summary ]}).
Proof.
  intros Ht Hne Hw Hl Hd.
  pose proof (trim_short text half Hw) as Htrim.
  split; [exact Htrim|].
  rewrite (handle_reduce data text text d Ht Hne Hl Hd Htrim).
  unfold summarize_call. split.
  - apply run_summarizer_calls.
  - intros item rest summary Ho Hs.
    rewrite (run_summarizer_ok o _ item rest summary Ho Hs). reflexivity.
Qed.

Lemma short_text_is_summarized_untrimmed_witness :
  let text := sample_text 150 in
  let o := constant_summarizer (str_of_string "ok") in
  let data : gmap string json :=
    <["text" := JStr text]> {[ "length" := JInt 61 ]} in
  trim_text_middle text half = Ok text
  /\ fst (run o (handle_audio_validation (JObj data)))
     = [SummarizerCall text 100 50 false]
  /\ forall item rest summary,
       o (SummarizerCall text 100 50 false) = Ok (item :: rest) ->
       item !! "summary_text" = Some summary ->
       snd (run o (handle_audio_validation (JObj data)))
       = Ok (jsonify {[ "message" := summary ]}).
Proof.
  intros text o data.
  apply (short_text_is_summarized_untrimmed o data text (JInt 61)).
  - apply gate_body_text.
  - discriminate.
  - vm_compute. discriminate.
  - apply gate_body_length.
  - cbn. lia.
Defined.

(** ** Gating twice *)

(** C2, as stated, fails: "hi" passes through at duration 0, and gating that
    output again at duration 61 returns the summarizer's output instead. *)
Lemma regate_is_not_identity :
  let text := JStr (str_of_string "hi") in
  let o := constant_summarizer (str_of_string "ok") in
  gate o text (JInt 0) = Ok (jsonify {[ "message" := text ]}) /\
  regate o (gate o text (JInt 0)) (JInt 61) <> gate o text (JInt 0).
Proof.
  intros text o.
  assert (gate o text (JInt 0) = Ok (pass_through text)) as E.
  { rewrite gate_unfold.
    rewrite (handle_short _ (str_of_string "hi"));
      [reflexivity | apply gate_body_text | discriminate | ].
    rewrite gate_body_length. reflexivity. }
  split; [exact E|]. rewrite E. cbn [regate].
  rewrite message_of_pass_through. subst text o.
  rewrite gate_constant_summarizer;
    [ | discriminate | vm_compute; discriminate | cbn; lia ].
  apply response_message_neq. discriminate.
Qed.

(** C2, amended: whenever the gate returns the text unchanged, gating that
    output again with any duration of at most 60 returns the same result. *)
Theorem regate_pass_through (o : oracle) (text : str) (d d' : json) :
  gate o (JStr text) d = Ok (jsonify {[ "message" := JStr text ]}) ->
  at_most d' 60 ->
  regate o (gate o (JStr text) d) d' = gate o (JStr text) d.
Proof.
  intros Hg Hd'. rewrite Hg. cbn [regate].
  fold (pass_through (JStr text)). rewrite message_of_pass_through.
  assert (text <> []) as Hne.
  { intros ->. rewrite gate_unfold in Hg.
    rewrite (handle_invalid _ _ (request_data_obj _)) in Hg
      by (right; apply gate_body_text).
    discriminate Hg. }
  rewrite gate_unfold.
  rewrite (handle_short _ text); [reflexivity | apply gate_body_text | exact Hne | ].
  rewrite gate_body_length. apply (at_most_le_int d' 60 Hd').
Qed.

Lemma regate_pass_through_witness :
  let text := str_of_string "good morning" in
  let o := failing_summarizer "down" in
  regate o (gate o (JStr text) (JInt 15)) (JFloat (float_lit 60))
  = gate o (JStr text) (JInt 15).
Proof.
  intros text o.
  apply (regate_pass_through o text (JInt 15) (JFloat (float_lit 60))).
  - rewrite gate_unfold.
    rewrite (handle_short _ text);
      [reflexivity | apply gate_body_text | discriminate | ].
    rewrite gate_body_length. reflexivity.
  - reflexivity.
Defined.

(** ** Empty summaries *)

(** C3, as stated, fails: when the summarizer answers with the empty string,
    the handler returns a success response whose message is empty, although
    the text was not. *)
Lemma empty_summary_is_returned :
  let text := str_of_string "hi" in
  text <> [] /\
  gate (constant_summarizer []) (JStr text) (JInt 61)
  = Ok (jsonify {[ "message" := JStr [] ]}).
Proof.
  intros text. split; [discriminate|].
  apply gate_constant_summarizer; [discriminate | vm_compute; discriminate | cbn; lia].
Qed.

(** C3, amended: for a non-empty text, whenever the gate returns a success
    response, its message is the original text or exactly the [summary_text]
    the summarizer answered with for the trimmed text, returned as it is
    without a check; so the message is a non-empty string whenever the
    summarizer never answers with an empty summary. *)
Theorem success_message_nonempty (o : oracle) (text : str) (d : json)
    (resp : response) :
  text <> [] ->
  gate o (JStr text) d = Ok resp ->
  exists m,
    resp = Response 200 {[ "message" := m ]}
    /\ (m = JStr text
        \/ exists trimmed item rest,
             trim_text_middle text half = Ok trimmed
             /\ o (SummarizerCall trimmed 100 50 false) = Ok (item :: rest)
             /\ item !! "summary_text" = Some m)
    /\ (summaries_nonempty o -> exists s, m = JStr s /\ s <> []).
Proof.
  intros Hne. rewrite gate_unfold.
  rewrite (handle_data _ _ (request_data_obj _)).
  rewrite gate_body_text, gate_body_length. cbn [default from_option id]. cbv zeta.
  rewrite (truthy_str _ Hne). cbn [negb].
  destruct (le_int d 60) as [[|]|e]; cbn.
  - intros [= <-]. exists (JStr text). split; [reflexivity|].
    split; [left; reflexivity|]. intros _. exists text. split; [reflexivity|exact Hne].
  - destruct (trim_text_middle text half) as [trimmed|e] eqn:Et; cbn; [|discriminate].
    destruct (o _) as [[|item rest]|e] eqn:Eo; cbn; try discriminate.
    unfold getitem. destruct (item !! "summary_text") as [v|] eqn:Ev; cbn;
      [|discriminate].
    intros [= <-]. exists v. split; [reflexivity|]. split.
    + right. exists trimmed, item, rest. split; [reflexivity|]. split; assumption.
    + intros Ho. exact (Ho _ _ _ _ Eo Ev).
  - discriminate.
Qed.

Lemma success_message_nonempty_witness :
  let o := constant_summarizer (str_of_string "ok") in
  let text := str_of_string "hi" in
  exists m,
    jsonify {[ "message" := JStr (str_of_string "ok") ]}
    = Response 200 {[ "message" := m ]}
    /\ (m = JStr text
        \/ exists trimmed item rest,
             trim_text_middle text half = Ok trimmed
             /\ o (SummarizerCall trimmed 100 50 false) = Ok (item :: rest)
             /\ item !! "summary_text" = Some m)
    /\ (summaries_nonempty o -> exists s, m = JStr s /\ s <> []).
Proof.
  intros o text.
  apply (success_message_nonempty o text (JInt 61)).
  - discriminate.
  - apply gate_constant_summarizer; [discriminate | vm_compute; discriminate | cbn; lia].
Defined.

(** ** Worked examples *)

(** White space is Unicode white space: a no-break space and an em space
    separate words as a blank does. *)
Example split_unicode_space :
  split [97; 160; 98; 8195; 99; 32; 32; 100]%N = [[97]; [98]; [99]; [100]]%N.
Proof. reflexivity. Qed.

Example split_sample_text : split (sample_text 300) = sample_words 300.
Proof. vm_compute. reflexivity. Qed.

(** 150 words are estimated at exactly 60 seconds, the threshold; 151 words
    are above it. *)
Example estimate_150_words :
  calculate_audio_duration (sample_text 150) = Ok (float_lit 60).
Proof. vm_compute. reflexivity. Qed.

Example estimate_151_words :
  exists f, calculate_audio_duration (sample_text 151) = Ok f /\ exceeds (JFloat f) 60.
Proof. eexists. split; [vm_compute; reflexivity|reflexivity]. Qed.

(** The estimate is a binary64 quotient: one word gives the float nearest to
    0.4, [7205759403792794 * 2^-54]. *)
Example estimate_one_word :
  calculate_audio_duration (str_of_string "hello")
  = Ok (S754_finite false 7205759403792794 (-54)).
Proof. vm_compute. reflexivity. Qed.

(** A 500-word text at 180 seconds: the middle 250 words go to the summarizer
    and its summary comes back. *)
Example gate_500_words :
  run (constant_summarizer (str_of_string "a summary"))
      (handle_audio_validation
         (JObj (<["text" := JStr (sample_text 500)]> {[ "length" := JInt 180 ]})))
  = ([SummarizerCall (join space (take 250 (drop 125 (sample_words 500)))) 100 50 false],
     Ok (jsonify {[ "message" := JStr (str_of_string "a summary") ]})).
Proof.
  rewrite (handle_reduce _ (sample_text 500)
             (join space (take 250 (drop 125 (sample_words 500)))) (JInt 180));
    [ | apply gate_body_text | discriminate | apply gate_body_length
      | cbn; lia | vm_compute; reflexivity ].
  apply (run_summarizer_ok _ _ {[ "summary_text" := JStr (str_of_string "a summary") ]} []);
    [reflexivity|apply lookup_singleton_eq].
Qed.

(** A 50-word text at 15 seconds comes back unchanged. *)
Example gate_50_words :
  gate (failing_summarizer "unused") (JStr (sample_text 50)) (JInt 15)
  = Ok (jsonify {[ "message" := JStr (sample_text 50) ]}).
Proof.
  rewrite gate_unfold.
  rewrite (handle_short _ (sample_text 50));
    [reflexivity | apply gate_body_text | discriminate | ].
  rewrite gate_body_length. reflexivity.
Qed.

(** The float literals of the model are the values Python's arithmetic
    gives: [1 / 2] is [0.5] and [5 / 2] is [2.5]. *)
Example half_value : int_truediv_int 1 2 = Ok half.
Proof. reflexivity. Qed.

Example two_and_a_half_value : int_truediv_int 5 2 = Ok two_and_a_half.
Proof. reflexivity. Qed.

(** A NaN duration is not at most 60: the comparison is false and the request
    takes the reduce path. *)
Example nan_is_not_short : le_int (JFloat S754_nan) 60 = Ok false.
Proof. reflexivity. Qed.

(** A duration that is not a number cannot be compared with 60. *)
Example string_length_raises :
  gate (constant_summarizer []) (JStr (str_of_string "hi")) (JStr (str_of_string "90"))
  = Raise TypeError.
Proof.
  rewrite gate_unfold, (handle_data _ _ (request_data_obj _)).
  rewrite gate_body_text, gate_body_length. reflexivity.
Qed.

(** * Further properties of the handler *)

(** ** Summarizer calls *)

(** Whatever the body and whatever the summarizer answers, a request makes at
    most one summarizer call, and that call is on the trimmed request text
    with [max_length = 100], [min_length = 50] and [do_sample = False]. *)
Theorem at_most_one_summarizer_call (o : oracle) (request_json : json) :
  fst (run o (handle_audio_validation request_json)) = []
  \/ exists data text trimmed,
       request_data request_json = Ok data
       /\ data !! "text" = Some (JStr text)
       /\ trim_text_middle text half = Ok trimmed
       /\ fst (run o (handle_audio_validation request_json))
          = [SummarizerCall trimmed 100 50 false].
Proof.
  destruct (request_data request_json) as [data|e] eqn:Ed.
  2:{ left. unfold handle_audio_validation. rewrite Ed. reflexivity. }
  rewrite (handle_data _ _ Ed). cbv zeta.
  destruct (data !! "text") as [v|] eqn:Ev; cbn [default from_option id];
    [|left; reflexivity].
  destruct (truthy v) eqn:Tv; cbn [negb]; [|left; reflexivity].
  destruct (le_int _ 60) as [[|]|e]; cbn; try (left; reflexivity).
  destruct v; cbn; try (left; reflexivity).
  destruct (trim_text_middle s half) as [trimmed|e] eqn:Et; cbn;
    [|left; reflexivity].
  right. exists data, s, trimmed.
  split; [reflexivity|]. split; [exact Ev|]. split; [exact Et|].
  apply (run_summarizer_calls o (summarize_call trimmed)).
Qed.

(** ** The shape of every response *)

Lemma handler_result (o : oracle) (request_json : json) (resp : response) :
  snd (run o (handle_audio_validation request_json)) = Ok resp ->
  exists data,
    request_data request_json = Ok data /\
    let text := default (JStr []) (data !! "text") in
    (truthy text = false
     /\ resp = Response 400 {[ "error" := JStr (str_of_string "The 'text' field is missing.") ]})
    \/ (truthy text = true
        /\ (resp = Response 200 {[ "message" := text ]}
            \/ exists c item rest summary,
                 o c = Ok (item :: rest)
                 /\ item !! "summary_text" = Some summary
                 /\ resp = Response 200 {[ "message" := summary ]})).
Proof.
  destruct (request_data request_json) as [data|e] eqn:Ed.
  2:{ unfold handle_audio_validation. rewrite Ed. discriminate. }
  rewrite (handle_data _ _ Ed). cbv zeta. intros H.
  exists data. split; [reflexivity|]. cbv zeta.
  destruct (truthy (default (JStr []) (data !! "text"))) eqn:Tv; cbn [negb] in H.
  2:{ left. split; [reflexivity|]. cbn [run snd] in H.
      injection H as <-. reflexivity. }
  right. split; [reflexivity|].
  destruct (le_int _ 60) as [[|]|e]; cbn [lift mbind prog_bind pbind run snd] in H;
    [left; injection H as <-; reflexivity| |discriminate].
  destruct (as_str _) as [s|e]; cbn in H; [|discriminate].
  destruct (trim_text_middle s half) as [trimmed|e]; cbn in H; [|discriminate].
  destruct (o _) as [[|item rest]|e] eqn:Eo; cbn in H; try discriminate.
  unfold getitem in H.
  destruct (item !! "summary_text") as [summary|] eqn:Es; cbn in H; [|discriminate].
  right. exists (SummarizerCall trimmed 100 50 false), item, rest, summary.
  split; [exact Eo|]. split; [exact Es|]. injection H as <-. reflexivity.
Qed.

(** Every response the handler returns is either the 400 error, exactly when
    the text is missing or falsy, or a 200 whose body is the single key
    [message], holding the request's own text or a [summary_text] the
    summarizer answered with. *)
Theorem response_shape (o : oracle) (request_json : json) (resp : response) :
  snd (run o (handle_audio_validation request_json)) = Ok resp ->
  exists data,
    request_data request_json = Ok data /\
    let text := default (JStr []) (data !! "text") in
    (truthy text = false
     /\ resp = Response 400 {[ "error" := JStr (str_of_string "The 'text' field is missing.") ]})
    \/ (truthy text = true
        /\ (resp = Response 200 {[ "message" := text ]}
            \/ exists c item rest summary,
                 o c = Ok (item :: rest)
                 /\ item !! "summary_text" = Some summary
                 /\ resp = Response 200 {[ "message" := summary ]})).
Proof.
  destruct (request_data request_json) as [data|e] eqn:Ed.
  2:{ unfold handle_audio_validation. rewrite Ed. discriminate. }
  rewrite (handle_data _ _ Ed). cbv zeta. intros H.
  exists data. split; [reflexivity|]. cbv zeta.
  destruct (truthy (default (JStr []) (data !! "text"))) eqn:Tv; cbn [negb] in H.
  2:{ left. split; [reflexivity|]. cbn [run snd] in H.
      injection H as <-. reflexivity. }
  right. split; [reflexivity|].
  destruct (le_int _ 60) as [[|]|e]; cbn [lift mbind prog_bind pbind run snd] in H;
    [left; injection H as <-; reflexivity| |discriminate].
  destruct (as_str _) as [s|e]; cbn in H; [|discriminate].
  destruct (trim_text_middle s half) as [trimmed|e]; cbn in H; [|discriminate].
  destruct (o _) as [[|item rest]|e] eqn:Eo; cbn in H; try discriminate.
  unfold getitem in H.
  destruct (item !! "summary_text") as [summary|] eqn:Es; cbn in H; [|discriminate].
  right. exists (SummarizerCall trimmed 100 50 false), item, rest, summary.
  split; [exact Eo|]. split; [exact Es|]. injection H as <-. reflexivity.
Qed.

Lemma response_shape_witness :
  exists data,
    request_data (JObj {[ "length" := JInt 90 ]}) = Ok data /\
    let text := default (JStr []) (data !! "text") in
    (truthy text = false
     /\ invalid_input
        = Response 400 {[ "error" := JStr (str_of_string "The 'text' field is missing.") ]})
    \/ (truthy text = true
        /\ (invalid_input = Response 200 {[ "message" := text ]}
            \/ exists c item rest summary,
                 constant_summarizer [] c = Ok (item :: rest)
                 /\ item !! "summary_text" = Some summary
                 /\ invalid_input = Response 200 {[ "message" := summary ]})).
Proof.
  apply (response_shape (constant_summarizer []) (JObj {[ "length" := JInt 90 ]})).
  rewrite (handle_invalid _ {[ "length" := JInt 90 ]}); [reflexivity| |].
  - apply request_data_obj.
  - left. apply lookup_singleton_ne. discriminate.
Defined.

(** ** Values of the wrong type *)

(** A [text] of any type that Python counts as false ([null], [false], [0],
    [0.0], [[]], [{}]) is answered like a missing text, with the 400 error,
    whatever [length] holds. *)
Theorem falsy_text_invalid_input (o : oracle) (data : gmap string json) (v : json) :
  data !! "text" = Some v ->
  v = JNull \/ v = JBool false \/ v = JInt 0 \/ (exists s, v = JFloat (S754_zero s))
  \/ v = JArr [] \/ v = JObj ∅ ->
  run o (handle_audio_validation (JObj data))
  = ([], Ok (Response 400 {[ "error" := JStr (str_of_string "The 'text' field is missing.") ]})).
Proof.
  intros Hv Hf. rewrite (handle_data _ _ (request_data_obj data)).
  rewrite Hv. cbn [default from_option id]. cbv zeta.
  assert (truthy v = false) as ->; [|reflexivity].
  destruct Hf as [->|[->|[->|[[s ->]|[->| ->]]]]]; reflexivity.
Qed.

Lemma falsy_text_invalid_input_witness :
  run (failing_summarizer "down")
      (handle_audio_validation (JObj (<["text" := JNull]> {[ "length" := JInt 90 ]})))
  = ([], Ok (Response 400 {[ "error" := JStr (str_of_string "The 'text' field is missing.") ]})).
Proof.
  apply (falsy_text_invalid_input _ _ JNull).
  - apply gate_body_text.
  - left. reflexivity.
Defined.

(** A [length] that is present but is no number ([null], a string, a list, an
    object) cannot be compared with 60: with a truthy text the handler raises
    [TypeError] and returns no response; the summarizer is not called. *)
Theorem non_numeric_length_raises (o : oracle) (data : gmap string json)
    (text d : json) :
  data !! "text" = Some text -> truthy text = true ->
  data !! "length" = Some d ->
  d = JNull \/ (exists s, d = JStr s) \/ (exists l, d = JArr l) \/ (exists m, d = JObj m) ->
  run o (handle_audio_validation (JObj data)) = ([], Raise TypeError).
Proof.
  intros Ht Tt Hd Hk. rewrite (handle_data _ _ (request_data_obj data)).
  rewrite Ht, Hd. cbn [default from_option id]. cbv zeta. rewrite Tt. cbn [negb].
  destruct Hk as [->|[[s ->]|[[l ->]|[m ->]]]]; reflexivity.
Qed.

Lemma non_numeric_length_raises_witness :
  run (constant_summarizer [])
      (handle_audio_validation
         (JObj (<["text" := JStr (str_of_string "hi")]>
                  {[ "length" := JStr (str_of_string "90") ]})))
  = ([], Raise TypeError).
Proof.
  apply (non_numeric_length_raises _ _ (JStr (str_of_string "hi"))
           (JStr (str_of_string "90"))).
  - apply gate_body_text.
  - reflexivity.
  - apply gate_body_length.
  - right. left. eexists. reflexivity.
Defined.

(** A truthy [text] that is no string is echoed back unchanged when the
    duration is at most 60; above 60 the handler raises [AttributeError] at
    [text.split()], before any summarizer call. *)
Theorem non_string_text (o : oracle) (data : gmap string json) (text d : json) :
  data !! "text" = Some text -> truthy text = true ->
  (forall s, text <> JStr s) ->
  data !! "length" = Some d ->
  (at_most d 60 ->
   run o (handle_audio_validation (JObj data))
   = ([], Ok (Response 200 {[ "message" := text ]})))
  /\ (exceeds d 60 ->
      run o (handle_audio_validation (JObj data)) = ([], Raise AttributeError)).
Proof.
  intros Ht Tt Hns Hd. rewrite (handle_data _ _ (request_data_obj data)).
  rewrite Ht, Hd. cbn [default from_option id]. cbv zeta. rewrite Tt. cbn [negb].
  split; intros Hc.
  - rewrite (at_most_le_int d 60 Hc). reflexivity.
  - rewrite (exceeds_le_int d 60 Hc). cbn.
    destruct text; try reflexivity. destruct (Hns s). reflexivity.
Qed.

Lemma non_string_text_witness :
  let data : gmap string json := <["text" := JInt 5]> {[ "length" := JInt 61 ]} in
  (at_most (JInt 61) 60 ->
   run (constant_summarizer []) (handle_audio_validation (JObj data))
   = ([], Ok (Response 200 {[ "message" := JInt 5 ]})))
  /\ (exceeds (JInt 61) 60 ->
      run (constant_summarizer []) (handle_audio_validation (JObj data))
      = ([], Raise AttributeError)).
Proof.
  intros data. apply (non_string_text _ data (JInt 5) (JInt 61)).
  - apply gate_body_text.
  - reflexivity.
  - discriminate.
  - apply gate_body_length.
Defined.

(** A body that is false in Python, of any type, is replaced by the empty
    object and so answered with the 400 error; a truthy body that is no object
    has no [get], and the handler raises [AttributeError]. *)
Theorem non_object_body (o : oracle) (request_json : json) :
  (forall d, request_json <> JObj d) ->
  run o (handle_audio_validation request_json)
  = if truthy request_json
    then ([], Raise AttributeError)
    else ([], Ok (Response 400 {[ "error" := JStr (str_of_string "The 'text' field is missing.") ]})).
Proof.
  intros Hno. destruct (truthy request_json) eqn:Tb.
  - unfold handle_audio_validation, request_data. rewrite Tb.
    destruct request_json; try reflexivity. destruct (Hno d). reflexivity.
  - rewrite (handle_invalid request_json ∅); [reflexivity| |left; reflexivity].
    unfold request_data. rewrite Tb. reflexivity.
Qed.

Lemma non_object_body_witness :
  run (constant_summarizer []) (handle_audio_validation (JArr [JInt 1]))
  = ([], Raise AttributeError).
Proof.
  apply (non_object_body (constant_summarizer []) (JArr [JInt 1])). discriminate.
Defined.

(** ** Answers of the summarizer that are not a summary *)

(** On the reduce path, when the summarizer answers with an empty list the
    handler raises [IndexError] at [[0]], and when the first result has no
    [summary_text] it raises [KeyError]; in both cases after the one call and
    without a response. *)
Theorem malformed_summary_raises (o : oracle) (data : gmap string json)
    (text trimmed : str) (d : json) :
  data !! "text" = Some (JStr text) -> text <> [] ->
  data !! "length" = Some d -> exceeds d 60 ->
  trim_text_middle text half = Ok trimmed ->
  (o (SummarizerCall trimmed 100 50 false) = Ok [] ->
   run o (handle_audio_validation (JObj data))
   = ([SummarizerCall trimmed 100 50 false], Raise IndexError))
  /\ (forall item rest,
        o (SummarizerCall trimmed 100 50 false) = Ok (item :: rest) ->
        item !! "summary_text" = None ->
        run o (handle_audio_validation (JObj data))
        = ([SummarizerCall trimmed 100 50 false], Raise KeyError)).
Proof.
  intros Ht Hne Hl Hd Htrim.
  rewrite (handle_reduce data text trimmed d Ht Hne Hl Hd Htrim).
  unfold summarize_call. split.
  - intros Ho. cbn [run]. rewrite Ho. reflexivity.
  - intros item rest Ho Hs. cbn [run]. rewrite Ho.
    unfold after_summary, getitem. cbn. rewrite Hs. reflexivity.
Qed.

Lemma malformed_summary_raises_witness :
  let o : oracle := fun _ => Ok [] in
  let data : gmap string json :=
    <["text" := JStr (str_of_string "hi")]> {[ "length" := JInt 61 ]} in
  (o (SummarizerCall (str_of_string "hi") 100 50 false) = Ok [] ->
   run o (handle_audio_validation (JObj data))
   = ([SummarizerCall (str_of_string "hi") 100 50 false], Raise IndexError))
  /\ (forall item rest,
        o (SummarizerCall (str_of_string "hi") 100 50 false) = Ok (item :: rest) ->
        item !! "summary_text" = None ->
        run o (handle_audio_validation (JObj data))
        = ([SummarizerCall (str_of_string "hi") 100 50 false], Raise KeyError)).
Proof.
  intros o data.
  apply (malformed_summary_raises o data (str_of_string "hi") (str_of_string "hi")
           (JInt 61)).
  - apply gate_body_text.
  - discriminate.
  - apply gate_body_length.
  - cbn. lia.
  - reflexivity.
Defined.

(** * Further properties of the trim *)

(** ** Splitting and joining *)

Lemma split_from_app_word (w s word : str) :
  Forall (fun c => isspace c = false) w ->
  split_from (w ++ s) word = split_from s (rev w ++ word).
Proof.
  revert word. induction w as [|c w IH]; intros word Hw; [reflexivity|].
  inversion Hw as [|? ? Hc Hw']; subst. cbn [app split_from]. rewrite Hc.
  rewrite IH by assumption. cbn [rev]. rewrite <- app_assoc. reflexivity.
Qed.

Lemma split_from_words (s word : str) :
  Forall (fun c => isspace c = false) word ->
  Forall is_word (split_from s word).
Proof.
  revert word. induction s as [|c s IH]; intros word Hword; cbn [split_from].
  - destruct word as [|a word]; [constructor|].
    constructor; [|constructor]. split.
    + intros E. apply (f_equal (@length N)) in E. rewrite length_rev in E.
      discriminate E.
    + apply Forall_rev. exact Hword.
  - destruct (isspace c) eqn:Ec.
    + destruct word as [|a word]; [apply IH; constructor|].
      constructor; [|apply IH; constructor]. split.
      * intros E. apply (f_equal (@length N)) in E. rewrite length_rev in E.
        discriminate E.
      * apply Forall_rev. exact Hword.
    + apply IH. constructor; assumption.
Qed.

Lemma split_words (s : str) : Forall is_word (split s).
Proof. apply split_from_words. constructor. Qed.

Lemma split_one_word (w : str) : is_word w -> split w = [w].
Proof.
  intros [Hne Hw]. unfold split.
  rewrite <- (app_nil_r w) at 1. rewrite (split_from_app_word w [] [] Hw).
  rewrite app_nil_r. cbn [split_from].
  destruct (rev w) as [|a r] eqn:Er.
  - apply (f_equal (@rev N)) in Er. rewrite rev_involutive in Er. contradiction.
  - rewrite <- Er, rev_involutive. reflexivity.
Qed.

Lemma split_join (ws : list str) :
  Forall is_word ws -> split (join space ws) = ws.
Proof.
  induction ws as [|w ws IH]; intros Hws; [reflexivity|].
  inversion Hws as [|? ? Hw Hws']; subst.
  destruct ws as [|w' ws]; [apply split_one_word; exact Hw|].
  destruct Hw as [Hne Hw]. change (join space (w :: w' :: ws))
    with (w ++ 32%N :: join space (w' :: ws)).
  unfold split. rewrite (split_from_app_word w _ [] Hw). rewrite app_nil_r.
  cbn [split_from]. change (isspace 32) with true. cbv iota.
  destruct (rev w) as [|a r] eqn:Er.
  - apply (f_equal (@rev N)) in Er. rewrite rev_involutive in Er. contradiction.
  - rewrite <- Er, rev_involutive. f_equal. apply IH. exact Hws'.
Qed.

(** ** The words of the trimmed text *)

(** The window of a long text, as positions in its word list. *)
Lemma trim_kept (text : str) :
  let words := split text in
  let w := Z.of_nat (length words) in
  150 < w < 2 ^ 53 ->
  let start := Z.to_nat ((w - w / 2) / 2) in
  let kept := take (Z.to_nat (w / 2)) (drop start words) in
  trim_text_middle text half = Ok (join space kept)
  /\ Z.of_nat (length kept) = w / 2
  /\ words = take start words ++ kept ++ drop (Z.to_nat (w / 2)) (drop start words)
  /\ Forall is_word kept.
Proof.
  intros words w Hw start kept.
  assert (0 <= (w - w / 2) / 2 <= (w - w / 2) / 2 + w / 2
          /\ (w - w / 2) / 2 + w / 2 <= w) as (Hs & He)
    by (Z.div_mod_to_equations; lia).
  destruct (slice_inside words _ _ Hs He) as [Esl Elen].
  replace ((w - w / 2) / 2 + w / 2 - (w - w / 2) / 2) with (w / 2) in Esl, Elen by lia.
  fold start kept in Esl. split; [|split; [|split]].
  - rewrite (trim_long text) by exact Hw. fold words w. rewrite Esl. reflexivity.
  - rewrite <- Esl. exact Elen.
  - subst kept. rewrite take_drop, take_drop. reflexivity.
  - apply Forall_take, Forall_drop, split_words.
Qed.

(** The trim never cuts a word: splitting the trimmed text gives back exactly
    the words it kept, which are the whole word list for a short text and the
    [floor(w / 2)] words of the window for a long one. *)
Theorem trimmed_words (text : str) :
  let words := split text in
  let w := Z.of_nat (length words) in
  w < 2 ^ 53 ->
  exists trimmed,
    trim_text_middle text half = Ok trimmed
    /\ split trimmed
       = (if w <=? 150 then words
          else slice words ((w - w / 2) / 2) ((w - w / 2) / 2 + w / 2))
    /\ Z.of_nat (length (split trimmed)) = (if w <=? 150 then w else w / 2).
Proof.
  intros words w Hw. destruct (Z.leb_spec w 150) as [Hle|Hgt].
  - exists text. split; [apply trim_short; exact Hle|]. split; reflexivity.
  - destruct (trim_kept text ltac:(fold words w; lia)) as (Et & El & _ & Hk).
    fold words w in Et, El, Hk. eexists. split; [exact Et|].
    rewrite (split_join _ Hk). split; [|exact El].
    assert (0 <= (w - w / 2) / 2 <= (w - w / 2) / 2 + w / 2
            /\ (w - w / 2) / 2 + w / 2 <= w) as (Hs & He)
      by (Z.div_mod_to_equations; lia).
    destruct (slice_inside words _ _ Hs He) as [Esl _]. rewrite Esl.
    do 2 f_equal. lia.
Qed.

Lemma trimmed_words_witness :
  let text := sample_text 301 in
  let words := split text in
  let w := Z.of_nat (length words) in
  exists trimmed,
    trim_text_middle text half = Ok trimmed
    /\ split trimmed
       = (if w <=? 150 then words
          else slice words ((w - w / 2) / 2) ((w - w / 2) / 2 + w / 2))
    /\ Z.of_nat (length (split trimmed)) = (if w <=? 150 then w else w / 2).
Proof.
  intros text. apply (trimmed_words text). vm_compute. reflexivity.
Defined.

(** The window is centred: the word list of a long text is a front part, the
    kept words and a back part, and the back part has as many words as the
    front part or one more. *)
Theorem trim_is_centred (text : str) :
  let w := Z.of_nat (length (split text)) in
  150 < w -> w < 2 ^ 53 ->
  exists front kept back,
    split text = front ++ kept ++ back
    /\ trim_text_middle text half = Ok (join (str_of_string " ") kept)
    /\ Z.of_nat (length kept) = w / 2
    /\ (length back = length front \/ length back = S (length front)).
Proof.
  intros w Hlo Hhi.
  destruct (trim_kept text ltac:(fold w; lia)) as (Et & El & Ew & _).
  fold w in Et, El, Ew.
  eexists _, _, _. split; [exact Ew|]. split; [exact Et|]. split; [exact El|].
  rewrite !length_drop, length_take.
  assert (0 <= (w - w / 2) / 2 /\ (w - w / 2) / 2 + w / 2 <= w
          /\ (w - ((w - w / 2) / 2 + w / 2) = (w - w / 2) / 2
              \/ w - ((w - w / 2) / 2 + w / 2) = (w - w / 2) / 2 + 1))
    as (H0 & H1 & H2) by (Z.div_mod_to_equations; lia).
  assert (0 <= w / 2) by (Z.div_mod_to_equations; lia).
  subst w. lia.
Qed.

Lemma trim_is_centred_witness :
  let text := sample_text 301 in
  let w := Z.of_nat (length (split text)) in
  exists front kept back,
    split text = front ++ kept ++ back
    /\ trim_text_middle text half = Ok (join (str_of_string " ") kept)
    /\ Z.of_nat (length kept) = w / 2
    /\ (length back = length front \/ length back = S (length front)).
Proof.
  intros text. apply (trim_is_centred text); vm_compute; reflexivity.
Defined.

(** Trimming again changes nothing as long as the first trim left at most
    150 words, that is for every text of at most 301 words. *)
Theorem trim_twice (text trimmed : str) :
  Z.of_nat (length (split text)) <= 301 ->
  trim_text_middle text half = Ok trimmed ->
  trim_text_middle trimmed half = Ok trimmed.
Proof.
  intros Hw Et.
  destruct (Z.le_gt_cases (Z.of_nat (length (split text))) 150) as [Hle|Hgt].
  - rewrite (trim_short text half Hle) in Et. injection Et as <-.
    apply trim_short. exact Hle.
  - destruct (trim_kept text ltac:(lia)) as (Et' & El & _ & Hk).
    rewrite Et' in Et. injection Et as <-.
    apply trim_short. rewrite (split_join _ Hk), El.
    Z.div_mod_to_equations. lia.
Qed.

Lemma trim_twice_witness :
  let trimmed := join space (take 150 (drop 75 (sample_words 301))) in
  trim_text_middle trimmed half = Ok trimmed.
Proof.
  intros trimmed. apply (trim_twice (sample_text 301) trimmed).
  - vm_compute. discriminate.
  - vm_compute. reflexivity.
Defined.

(** * The estimate against the threshold *)

(** ** Rounding keeps magnitudes from below *)

Module Binary64Lower.

Lemma digits2_pos_gt (p : positive) : Z.pos p < 2 ^ Z.pos (digits2_pos p).
Proof.
  rewrite digits2_pos_size. pose proof (Pos.size_gt p) as H.
  change 2 with (Z.pos 2). rewrite <- Pos2Z.inj_pow. lia.
Qed.

Lemma above_weaken (L L' m e : Z) : L' <= L -> above L m e -> above L' m e.
Proof.
  intros HL [Hm Hlo]. split; [exact Hm|]. intros He.
  apply (Z.le_trans _ (2 ^ (L - e))); [|apply Hlo; lia].
  apply Z.pow_le_mono_r; lia.
Qed.

Lemma above_digits (L : Z) (p : positive) (e : Z) :
  above L (Z.pos p) e -> L + 1 <= Z.pos (digits2_pos p) + e.
Proof.
  intros [_ Hlo]. destruct (Z.le_gt_cases e L) as [He|He]; [|lia].
  pose proof (digits2_pos_gt p) as Hgt. specialize (Hlo He).
  assert (L - e < Z.pos (digits2_pos p)); [|lia].
  apply (Z.pow_lt_mono_r_iff 2); lia.
Qed.

Lemma above_exponent (L : Z) (p : positive) (e : Z) :
  above L (Z.pos p) e -> Z.pos p < 2 ^ 53 -> L - 53 < e.
Proof.
  intros [_ Hlo] Hp. destruct (Z.le_gt_cases e L) as [He|He]; [|lia].
  specialize (Hlo He).
  assert (L - e < 53); [|lia]. apply (Z.pow_lt_mono_r_iff 2); lia.
Qed.

Lemma shr_fexp_above (L m e : Z) (l : location) :
  -1074 <= L -> above L m e ->
  above L (shr_m (fst (shr_fexp prec emax m e l))) (snd (shr_fexp prec emax m e l)).
Proof.
  intros HL [Hm Hlo]. unfold shr_fexp, shr.
  destruct (fexp prec emax (Zdigits2 m + e) - e) as [|p|p] eqn:En;
    cbn [fst snd]; try (rewrite shr_m_of_loc; split; assumption).
  rewrite iter_shr_1_div by (rewrite shr_m_of_loc; lia).
  rewrite shr_m_of_loc.
  assert (2 ^ Z.pos p <= m) as Hp.
  { destruct m as [|q|q]; try lia. cbn [Zdigits2] in En.
    pose proof (digits2_pos_le q) as Hq.
    unfold fexp, SpecFloat.emin, prec, emax in En.
    destruct (Z.max_spec (Z.pos (digits2_pos q) + e - 53) (3 - 1024 - 53))
      as [[_ Emax]|[_ Emax]]; rewrite Emax in En.
    - assert (e <= L) as He by lia.
      apply (Z.le_trans _ (2 ^ (L - e))); [|apply Hlo; exact He].
      apply Z.pow_le_mono_r; lia.
    - apply (Z.le_trans _ (2 ^ (Z.pos (digits2_pos q) - 1))); [|exact Hq].
      apply Z.pow_le_mono_r; lia. }
  split.
  - apply Z.div_str_pos. split; [apply Z.pow_pos_nonneg; lia|exact Hp].
  - intros He. apply Z.div_le_lower_bound; [apply Z.pow_pos_nonneg; lia|].
    rewrite <- Z.pow_add_r by lia.
    replace (Z.pos p + (L - (e + Z.pos p))) with (L - e) by lia.
    apply Hlo. lia.
Qed.

Lemma round_nearest_even_above (L m e : Z) (l : location) :
  above L m e -> above L (round_nearest_even m l) e.
Proof.
  intros [Hm Hlo]. unfold round_nearest_even.
  destruct l as [|[| |]]; [| destruct (Z.even m) | |]; split;
    try lia; intros He; specialize (Hlo He); lia.
Qed.

Lemma shr_fexp_fits (m e : Z) (l : location) :
  0 <= m -> shr_m (fst (shr_fexp prec emax m e l)) < 2 ^ 53.
Proof.
  intros Hm. unfold shr_fexp, shr.
  assert (m < 2 ^ Zdigits2 m /\ 0 <= Zdigits2 m) as [Hd Hd0].
  { destruct m as [|q|q]; cbn [Zdigits2]; [cbn; lia| |lia].
    split; [apply digits2_pos_gt|lia]. }
  assert (Zdigits2 m - 53 <= fexp prec emax (Zdigits2 m + e) - e) as Hn
    by (unfold fexp, SpecFloat.emin, prec, emax; lia).
  destruct (fexp prec emax (Zdigits2 m + e) - e) as [|p|p] eqn:En; cbn [fst snd].
  - rewrite shr_m_of_loc. apply (Z.lt_le_trans _ _ _ Hd).
    apply Z.pow_le_mono_r; lia.
  - rewrite iter_shr_1_div by (rewrite shr_m_of_loc; lia). rewrite shr_m_of_loc.
    apply Z.div_lt_upper_bound; [apply Z.pow_pos_nonneg; lia|].
    rewrite <- Z.pow_add_r by lia. apply (Z.lt_le_trans _ _ _ Hd).
    apply Z.pow_le_mono_r; lia.
  - rewrite shr_m_of_loc. apply (Z.lt_le_trans _ _ _ Hd).
    apply Z.pow_le_mono_r; lia.
Qed.

Lemma binary_round_aux_above (L m e : Z) (s : bool) (l : location) :
  -1074 <= L -> above L m e ->
  match binary_round_aux prec emax s m e l with
  | S754_zero _ => False
  | S754_finite _ mR eR => above L (Z.pos mR) eR /\ Z.pos mR < 2 ^ 53
  | _ => True
  end.
Proof.
  intros HL Ha. unfold binary_round_aux.
  pose proof (shr_fexp_above L m e l HL Ha) as H1.
  destruct (shr_fexp prec emax m e l) as [mrs' e'] eqn:E1. cbn [fst snd] in H1.
  pose proof (round_nearest_even_above L _ _ (loc_of_shr_record mrs') H1) as H2.
  pose proof (shr_fexp_above L _ _ loc_Exact HL H2) as H3.
  pose proof (shr_fexp_fits (round_nearest_even (shr_m mrs') (loc_of_shr_record mrs'))
                e' loc_Exact ltac:(destruct H2; lia)) as H4.
  destruct (shr_fexp prec emax _ e' loc_Exact) as [mrs'' e''] eqn:E2.
  cbn [fst snd] in H3, H4.
  destruct (shr_m mrs'') as [|p|p] eqn:Em.
  - destruct H3. lia.
  - destruct (e'' <=? emax - prec); [split; assumption|exact I].
  - exact I.
Qed.

Lemma shl_align_above (L : Z) (mx : positive) (ex ex' : Z) :
  above L (Z.pos mx) ex ->
  above L (Z.pos (fst (shl_align mx ex ex'))) (snd (shl_align mx ex ex')).
Proof.
  intros [Hm Hlo]. unfold shl_align.
  destruct (ex' - ex) as [|d|d] eqn:Ed; cbn [fst snd]; try (split; assumption).
  rewrite iter_xO_pow. split; [lia|]. intros He.
  destruct (Z.le_gt_cases ex L) as [Hex|Hex].
  - replace (L - ex') with (L - ex + Z.pos d) by lia.
    rewrite Z.pow_add_r by lia.
    apply Z.mul_le_mono_nonneg_r; [apply Z.pow_nonneg; lia|apply Hlo; exact Hex].
  - apply (Z.le_trans _ (1 * 2 ^ Z.pos d)); [|apply Z.mul_le_mono_nonneg_r;
      [apply Z.pow_nonneg; lia|lia]].
    rewrite Z.mul_1_l. apply Z.pow_le_mono_r; lia.
Qed.

Lemma float_of_int_above (L B w : Z) :
  0 <= L -> 2 ^ L <= w < 2 ^ B -> 0 <= B -> B + 1 <= 971 ->
  exists f, float_of_int w = Ok f /\ float_within (B + 1) f /\ float_above L f.
Proof.
  intros HL [Hlo Hhi] HB HB'.
  assert (0 < w) as Hw by (pose proof (Z.pow_pos_nonneg 2 L); lia).
  destruct w as [|p|p]; try lia.
  unfold float_of_int, binary_normalize, binary_round.
  assert (within B (Z.pos p) 0) as Hp
    by (repeat split; [lia|lia|rewrite Z.sub_0_r; assumption]).
  assert (above L (Z.pos p) 0) as Ha
    by (split; [lia|intros _; rewrite Z.sub_0_r; assumption]).
  pose proof (shl_align_within B p 0
                (fexp prec emax (Z.pos (digits2_pos p) + 0)) Hp) as Hw1.
  pose proof (shl_align_above L p 0
                (fexp prec emax (Z.pos (digits2_pos p) + 0)) Ha) as Ha1.
  destruct (shl_align p 0 _) as [mz ez]. cbn [fst snd] in Hw1, Ha1.
  pose proof (binary_round_aux_above L (Z.pos mz) ez false loc_Exact
                ltac:(lia) Ha1) as Hab.
  destruct (binary_round_aux_within B (Z.pos mz) ez false loc_Exact
              ltac:(lia) HB' Hw1) as [E|(m' & e' & E & Hw')];
    rewrite E in Hab |- *; [contradiction|].
  exists (S754_finite false m' e'). split; [reflexivity|]. split.
  - right. exists m', e'. split; [reflexivity|assumption].
  - exists m', e'. split; [reflexivity|assumption].
Qed.

Lemma SFdiv_core_above (L1 U2 : Z) (mx my : positive) (ex ey : Z) :
  above L1 (Z.pos mx) ex -> Z.pos my < 2 ^ (U2 - ey) -> -1074 <= L1 - U2 ->
  above (L1 - U2)
    (fst (fst (SFdiv_core_binary prec emax (Z.pos mx) ex (Z.pos my) ey)))
    (snd (fst (SFdiv_core_binary prec emax (Z.pos mx) ex (Z.pos my) ey))).
Proof.
  intros Hx Hy HL.
  pose proof (above_digits L1 mx ex Hx) as Hd1.
  assert (0 <= U2 - ey) as HU.
  { destruct (Z.le_gt_cases 0 (U2 - ey)); [assumption|].
    rewrite Z.pow_neg_r in Hy by lia. lia. }
  pose proof (Zdigits2_bound (Z.pos my) (U2 - ey) ltac:(lia) HU) as Hd2.
  cbn [Zdigits2] in Hd2.
  pose proof (digits2_pos_le mx) as Hmx. pose proof (digits2_pos_gt my) as Hmy.
  set (D1 := Z.pos (digits2_pos mx)) in *. set (D2 := Z.pos (digits2_pos my)) in *.
  apply (above_weaken (D1 + ex - 1 - (D2 + ey))); [lia|].
  unfold SFdiv_core_binary. cbn [Zdigits2]. fold D1 D2.
  set (Lt := D1 + ex - 1 - (D2 + ey)).
  set (e' := Z.min _ (ex - ey)).
  assert (e' <= ex - ey) as He1 by apply Z.le_min_r.
  assert (e' <= Lt) as He2.
  { apply (Z.le_trans _ (fexp prec emax (D1 + ex - (D2 + ey)))); [apply Z.le_min_l|].
    unfold fexp, SpecFloat.emin, prec, emax. lia. }
  set (m' := match ex - ey - e' with
             | 0 => Z.pos mx
             | Z.pos _ => Z.shiftl (Z.pos mx) (ex - ey - e')
             | Z.neg _ => 0
             end).
  assert (m' = Z.pos mx * 2 ^ (ex - ey - e')) as Em'.
  { subst m'. destruct (ex - ey - e') as [|s|s] eqn:Es; [cbn; lia| |lia].
    apply Z.shiftl_mul_pow2. lia. }
  destruct (Z.div_eucl m' (Z.pos my)) as [q r] eqn:Ed. cbn [fst snd].
  assert (q = m' / Z.pos my) as -> by (unfold Z.div; rewrite Ed; reflexivity).
  assert (2 ^ (Lt - e') <= m' / Z.pos my) as Hq.
  { apply Z.div_le_lower_bound; [lia|].
    apply (Z.le_trans _ (2 ^ D2 * 2 ^ (Lt - e'))).
    - apply Z.mul_le_mono_nonneg_r; [apply Z.pow_nonneg; lia|lia].
    - rewrite <- Z.pow_add_r by lia. rewrite Em'.
      replace (D2 + (Lt - e')) with (D1 - 1 + (ex - ey - e')) by (subst Lt; lia).
      rewrite Z.pow_add_r by lia.
      apply Z.mul_le_mono_nonneg_r; [apply Z.pow_nonneg; lia|exact Hmx]. }
  split; [|intros _; exact Hq].
  apply (Z.lt_le_trans _ (2 ^ (Lt - e'))); [apply Z.pow_pos_nonneg; lia|exact Hq].
Qed.

Lemma SFdiv_above (B L1 U2 : Z) (x : spec_float) (my : positive) (ey : Z) :
  float_within B x -> float_above L1 x ->
  Z.pos my < 2 ^ (U2 - ey) ->
  -1074 <= L1 - U2 -> -1074 <= B - ey -> B - ey + 1 <= 971 ->
  float_above (L1 - U2) (SFdiv prec emax x (S754_finite false my ey)).
Proof.
  intros Hw (mx & ex & -> & Ha & _) Hy HL Hlo Hhi.
  destruct Hw as [?|(mx' & ex' & [= <- <-] & Hw)]; [discriminate|].
  unfold SFdiv.
  pose proof (SFdiv_core_within B mx my ex ey Hw) as Hc.
  pose proof (SFdiv_core_above L1 U2 mx my ex ey Ha Hy HL) as Hc'.
  destruct (SFdiv_core_binary prec emax (Z.pos mx) ex (Z.pos my) ey)
    as [[mz ez] lz]. cbn [fst snd] in Hc, Hc'. cbn [xorb].
  pose proof (binary_round_aux_above (L1 - U2) mz ez false lz HL Hc') as Hab.
  destruct (binary_round_aux_within (B - ey) mz ez false lz Hlo Hhi Hc)
    as [E|(m' & e' & E & _)]; rewrite E in Hab |- *; [contradiction|].
  exists m', e'. split; [reflexivity|exact Hab].
Qed.

Lemma SFltb_exponent (m1 m2 : positive) (e1 e2 : Z) :
  e1 < e2 -> SFltb (S754_finite false m1 e1) (S754_finite false m2 e2) = true.
Proof.
  intros H. unfold SFltb, SFcompare. rewrite (proj2 (Z.compare_lt_iff e1 e2) H).
  reflexivity.
Qed.

End Binary64Lower.

Import Binary64Lower.

(** ** 150 words are 60 seconds *)

Lemma estimate_short (n : nat) :
  (n <= 150)%nat -> estimate_at_most_60 n = true.
Proof.
  intros Hn.
  assert (forallb estimate_at_most_60 (seq 0 151) = true) as H
    by (vm_compute; reflexivity).
  rewrite forallb_forall in H. apply H. apply in_seq. lia.
Qed.

Lemma estimate_middle (n : nat) :
  (150 < n < 256)%nat -> estimate_exceeds_60 n = true.
Proof.
  intros Hn.
  assert (forallb estimate_exceeds_60 (seq 151 105) = true) as H
    by (vm_compute; reflexivity).
  rewrite forallb_forall in H. apply H. apply in_seq. lia.
Qed.

Lemma estimate_long (w : Z) :
  256 <= w <= PY_SSIZE_T_MAX ->
  exists f, int_truediv_float w two_and_a_half = Ok f
            /\ SFltb (float_lit 60) f = true.
Proof.
  intros [Hlo Hhi]. unfold PY_SSIZE_T_MAX in Hhi.
  change (float_lit 60) with (S754_finite false 8444249301319680 (-47)).
  destruct (float_of_int_above 8 63 w) as (fw & Efw & Hw & Ha);
    [lia|change (2 ^ 8) with 256; lia|lia|lia|].
  unfold int_truediv_float. rewrite Efw. cbn.
  eexists. split; [reflexivity|].
  pose proof (SFdiv_above 64 8 2 fw 5629499534213120 (-51) Hw Ha
                ltac:(reflexivity) ltac:(lia) ltac:(lia) ltac:(lia))
    as (m & e & E & Hab & Hfit).
  unfold two_and_a_half. rewrite E.
  pose proof (above_exponent (8 - 2) m e Hab Hfit) as He.
  apply SFltb_exponent. lia.
Qed.

Lemma estimate_of_words (w : Z) :
  0 <= w <= PY_SSIZE_T_MAX ->
  exists f, int_truediv_float w two_and_a_half = Ok f
            /\ (w <= 150 -> SFleb f (float_lit 60) = true)
            /\ (150 < w -> SFltb (float_lit 60) f = true).
Proof.
  intros [H0 Hhi].
  destruct (Z.le_gt_cases w 150) as [Hle|Hgt].
  - pose proof (estimate_short (Z.to_nat w) ltac:(lia)) as H.
    unfold estimate_at_most_60 in H. rewrite Z2Nat.id in H by lia.
    destruct (int_truediv_float w two_and_a_half) as [f|e]; [|discriminate].
    exists f. split; [reflexivity|]. split; [intros _; exact H|lia].
  - destruct (Z.lt_ge_cases w 256) as [Hmid|Hbig].
    + pose proof (estimate_middle (Z.to_nat w) ltac:(lia)) as H.
      unfold estimate_exceeds_60 in H. rewrite Z2Nat.id in H by lia.
      destruct (int_truediv_float w two_and_a_half) as [f|e]; [|discriminate].
      exists f. split; [reflexivity|]. split; [lia|intros _; exact H].
    + destruct (estimate_long w ltac:(lia)) as (f & Ef & Hf).
      exists f. split; [exact Ef|]. split; [lia|intros _; exact Hf].
Qed.

Lemma estimate_calibrated (text : str) :
  Z.of_nat (length text) <= PY_SSIZE_T_MAX ->
  let w := Z.of_nat (length (split text)) in
  exists f,
    calculate_audio_duration text = Ok f
    /\ le_int (JFloat f) 60 = Ok (w <=? 150)
    /\ (w <= 150 -> at_most (JFloat f) 60)
    /\ (150 < w -> exceeds (JFloat f) 60).
Proof.
  intros Hlen w. pose proof (split_length text) as Hs.
  destruct (estimate_of_words w ltac:(subst w; lia)) as (f & Ef & Hle & Hgt).
  exists f. rewrite calculate_audio_duration_unfold. fold w.
  split; [exact Ef|]. split; [|split; [exact Hle|exact Hgt]].
  cbn [le_int]. fold (float_lit 60). f_equal.
  destruct (Z.leb_spec w 150) as [H|H].
  - apply Hle. exact H.
  - apply SFltb_not_SFleb. apply Hgt. exact H.
Qed.

(** The estimator and the gate agree on the threshold: the estimate of a text
    is at most 60 seconds exactly when the text has at most 150 words, so the
    handler's test [length <= 60] on the estimate is the test
    [word count <= 150]. *)
Theorem estimate_threshold (text : str) :
  Z.of_nat (length text) <= PY_SSIZE_T_MAX ->
  let w := Z.of_nat (length (split text)) in
  exists f,
    calculate_audio_duration text = Ok f
    /\ le_int (JFloat f) 60 = Ok (w <=? 150)
    /\ (w <= 150 -> at_most (JFloat f) 60)
    /\ (150 < w -> exceeds (JFloat f) 60).
Proof.
  intros Hlen w. pose proof (split_length text) as Hs.
  destruct (estimate_of_words w ltac:(subst w; lia)) as (f & Ef & Hle & Hgt).
  exists f. rewrite calculate_audio_duration_unfold. fold w.
  split; [exact Ef|]. split; [|split; [exact Hle|exact Hgt]].
  cbn [le_int]. fold (float_lit 60). f_equal.
  destruct (Z.leb_spec w 150) as [H|H].
  - apply Hle. exact H.
  - apply SFltb_not_SFleb. apply Hgt. exact H.
Qed.

Lemma estimate_threshold_witness :
  let text := sample_text 151 in
  let w := Z.of_nat (length (split text)) in
  exists f,
    calculate_audio_duration text = Ok f
    /\ le_int (JFloat f) 60 = Ok (w <=? 150)
    /\ (w <= 150 -> at_most (JFloat f) 60)
    /\ (150 < w -> exceeds (JFloat f) 60).
Proof.
  intros text. apply (estimate_threshold text). vm_compute. discriminate.
Defined.

(** ** Blank texts and degenerate ratios *)

Lemma split_from_blank (s : str) :
  Forall (fun c => isspace c = true) s -> split_from s [] = [].
Proof.
  induction s as [|c s IH]; intros Hs; [reflexivity|].
  inversion Hs as [|? ? Hc Hs']; subst. cbn [split_from]. rewrite Hc.
  apply IH. exact Hs'.
Qed.

(** A text made of white space only, the empty text included, has no words:
    its estimate is zero seconds and the trim returns it unchanged, whatever
    the ratio. *)
Theorem blank_text (text : str) (ratio : spec_float) :
  Forall (fun c => isspace c = true) text ->
  split text = []
  /\ calculate_audio_duration text = Ok (S754_zero false)
  /\ trim_text_middle text ratio = Ok text.
Proof.
  intros Hb. pose proof (split_from_blank text Hb) as Es. fold (split text) in Es.
  split; [exact Es|]. split.
  - rewrite calculate_audio_duration_unfold, Es. reflexivity.
  - apply trim_short. rewrite Es. cbn. lia.
Qed.

Lemma blank_text_witness :
  let text := [32; 9; 10; 160]%N in
  split text = []
  /\ calculate_audio_duration text = Ok (S754_zero false)
  /\ trim_text_middle text half = Ok text.
Proof.
  intros text. apply (blank_text text half).
  repeat constructor.
Defined.

(** On a text of more than 150 words a ratio that is no usable number shows
    at [int(...)]: NaN raises [ValueError], an infinity raises
    [OverflowError]; a zero ratio keeps no word and gives the empty string. *)
Theorem trim_degenerate_ratio (text : str) :
  let w := Z.of_nat (length (split text)) in
  150 < w -> w < 2 ^ 53 ->
  trim_text_middle text S754_nan = Raise ValueError
  /\ (forall s, trim_text_middle text (S754_infinity s) = Raise OverflowError)
  /\ (forall s, trim_text_middle text (S754_zero s) = Ok []).
Proof.
  intros w Hlo Hhi. unfold trim_text_middle. fold w.
  destruct (Z.leb_spec w 150); [lia|].
  destruct w as [|p|p] eqn:Ew; try lia.
  destruct (float_of_int_exact p Hhi) as (mz & ez & Ef & _).
  unfold int_mul_float. rewrite Ef. cbn [mbind outcome_bind obind SFmul int_of_float].
  split; [reflexivity|]. split; [reflexivity|]. intros s.
  rewrite Z.sub_0_r, Z.add_0_r.
  assert (0 <= Z.pos p / 2 <= Z.pos p / 2 /\ Z.pos p / 2 <= Z.of_nat (length (split text)))
    as [H1 H2] by (fold w; rewrite Ew; Z.div_mod_to_equations; lia).
  destruct (slice_inside (split text) _ _ H1 H2) as [Esl _].
  rewrite Esl, Z.sub_diag. reflexivity.
Qed.

Lemma trim_degenerate_ratio_witness :
  let text := sample_text 151 in
  trim_text_middle text S754_nan = Raise ValueError
  /\ (forall s, trim_text_middle text (S754_infinity s) = Raise OverflowError)
  /\ (forall s, trim_text_middle text (S754_zero s) = Ok []).
Proof.
  intros text. apply (trim_degenerate_ratio text); vm_compute; reflexivity.
Defined.

(** * The agent's callback against the service *)

Lemma callback_body_text (f : spec_float) (text : str) :
  (<["length" := JFloat f]> ({[ "text" := JStr text ]} : gmap string json)) !! "text"
  = Some (JStr text).
Proof. rewrite lookup_insert_ne by discriminate. apply lookup_singleton_eq. Qed.

Lemma callback_body_length (f : spec_float) (text : str) :
  (<["length" := JFloat f]> ({[ "text" := JStr text ]} : gmap string json)) !! "length"
  = Some (JFloat f).
Proof. apply lookup_insert_eq. Qed.

Lemma validate_unfold (post : transport) (text_stream : text_source) (f : spec_float) :
  calculate_audio_duration (source_text text_stream) = Ok f ->
  validate_text_before_tts post text_stream
  = (response ← post FLASK_API_URL
                  (JObj (<["length" := JFloat f]>
                           {[ "text" := JStr (source_text text_stream) ]}));
     if response_ok response
     then
       decoded ← payload response;
       match decoded with
       | JObj d => Ok (default (JStr (source_text text_stream)) (d !! "message"))
       | _ => Raise AttributeError
       end
     else Ok (JStr (source_text text_stream))).
Proof.
  intros Ef. unfold validate_text_before_tts.
  destruct text_stream; cbn [source_text] in *; rewrite Ef; reflexivity.
Qed.

(** ** What crosses the wire *)

Lemma join_surrogates_well_formed (s : str) :
  well_formed s -> join_surrogates s = s.
Proof.
  induction s as [|c1 s IH]; intros Hs; [reflexivity|].
  inversion Hs as [|? ? Hc Hs']; subst.
  destruct s as [|c2 rest]; [reflexivity|].
  cbn [join_surrogates].
  apply orb_false_iff in Hc as [Hh _]. rewrite Hh. cbn [andb].
  f_equal. apply IH. exact Hs'.
Qed.

Lemma join_surrogates_nonempty (s : str) : s <> [] -> join_surrogates s <> [].
Proof.
  destruct s as [|c1 [|c2 rest]]; [contradiction|discriminate|].
  intros _. cbn [join_surrogates].
  destruct (is_high_surrogate c1 && is_low_surrogate c2); discriminate.
Qed.

Lemma wire_request (f : spec_float) (text : str) :
  wire (JObj (<["length" := JFloat f]> {[ "text" := JStr text ]}))
  = JObj (<["length" := JFloat f]> {[ "text" := JStr (join_surrogates text) ]}).
Proof. cbn [wire]. rewrite fmap_insert, map_fmap_singleton. reflexivity. Qed.

Lemma request_is_finite (f : spec_float) (text : str) :
  float_is_finite f = true ->
  has_nonfinite (JObj (<["length" := JFloat f]> {[ "text" := JStr text ]})) = false.
Proof.
  intros Hf.
  transitivity (negb (float_is_finite f)); [|rewrite Hf; reflexivity].
  vm_compute. destruct f; reflexivity.
Qed.

(** What the callback sends: the estimate of its text, a finite float that
    is at most 60 exactly for a text of at most 150 words. *)
Lemma estimate_sent (text : str) :
  Z.of_nat (length text) <= PY_SSIZE_T_MAX ->
  exists f,
    calculate_audio_duration text = Ok f
    /\ float_is_finite f = true
    /\ le_int (JFloat f) 60 = Ok (Z.of_nat (length (split text)) <=? 150)
    /\ (150 < Z.of_nat (length (split text)) -> exceeds (JFloat f) 60).
Proof.
  intros Hlen.
  destruct (estimate_calibrated text Hlen) as (f & Ef & Hle & _ & Hgt).
  exists f. split; [exact Ef|]. split; [|split; assumption].
  rewrite calculate_audio_duration_unfold in Ef. unfold int_truediv_float in Ef.
  pose proof (split_length text) as Hs.
  destruct (float_of_int_within 63 (Z.of_nat (length (split text))))
    as (fw & Efw & Hfw); [unfold PY_SSIZE_T_MAX in Hlen; lia|lia|lia|].
  rewrite Efw in Ef. cbn in Ef. injection Ef as <-.
  destruct (SFdiv_within 64 fw 5629499534213120 (-51) Hfw ltac:(lia) ltac:(lia))
    as [E|(m & e & E & _)]; unfold two_and_a_half; rewrite E; reflexivity.
Qed.

Lemma validate_served (o : oracle) (text_stream : text_source) (f : spec_float) :
  calculate_audio_duration (source_text text_stream) = Ok f ->
  float_is_finite f = true ->
  validate_text_before_tts (gate_service o) text_stream
  = match snd (run o (handle_audio_validation
                        (JObj (<["length" := JFloat f]>
                                 {[ "text" := JStr (join_surrogates
                                                      (source_text text_stream)) ]}))))
    with
    | Ok resp =>
        if (400 <=? status resp) && (status resp <? 600)
        then Ok (JStr (source_text text_stream))
        else Ok (default (JStr (source_text text_stream))
                   (wire <$> body resp !! "message"))
    | Raise _ => Ok (JStr (source_text text_stream))
    end.
Proof.
  intros Ef Hf. rewrite (validate_unfold _ _ f Ef). unfold gate_service.
  rewrite (request_is_finite f _ Hf), String.eqb_refl, wire_request.
  cbn [mbind outcome_bind obind].
  destruct (snd (run o _)) as [resp|e]; cbn [flask_response]; [|reflexivity].
  unfold response_ok. cbn [status_code payload].
  destruct ((400 <=? status resp) && (status resp <? 600)); cbn [negb];
    [reflexivity|].
  cbn [mbind outcome_bind obind wire]. rewrite lookup_fmap. reflexivity.
Qed.

(** ** Short texts *)

(** A text of at most 150 words, the empty text included, comes back from the
    callback as it crosses the wire twice, which is the text itself when it
    holds no surrogate code point; the service does not call the summarizer,
    as the estimate the callback sends is at most 60. *)
Theorem short_text_unchanged (o : oracle) (text_stream : text_source) :
  let text := source_text text_stream in
  Z.of_nat (length text) <= PY_SSIZE_T_MAX ->
  Z.of_nat (length (split text)) <= 150 ->
  validate_text_before_tts (gate_service o) text_stream
  = Ok (JStr (join_surrogates (join_surrogates text)))
  /\ (well_formed text ->
      validate_text_before_tts (gate_service o) text_stream = Ok (JStr text))
  /\ exists f,
       calculate_audio_duration text = Ok f
       /\ fst (run o (handle_audio_validation
                        (wire (JObj (<["length" := JFloat f]>
                                       {[ "text" := JStr text ]})))))
          = [].
Proof.
  intros text Hlen Hw.
  destruct (estimate_sent text Hlen) as (f & Ef & Hf & Hle & _).
  rewrite (proj2 (Z.leb_le _ 150) Hw) in Hle.
  assert (run o (handle_audio_validation
                   (JObj (<["length" := JFloat f]>
                            {[ "text" := JStr (join_surrogates text) ]})))
          = ([], Ok (if bool_decide (text = []) then invalid_input
                     else pass_through (JStr (join_surrogates text))))) as Er.
  { case_bool_decide as Et.
    - rewrite (handle_invalid _ _ (request_data_obj _)); [reflexivity|].
      right. rewrite Et. apply callback_body_text.
    - rewrite (handle_short _ (join_surrogates text)
                 (callback_body_text f _) (join_surrogates_nonempty _ Et));
        [reflexivity|].
      rewrite callback_body_length. exact Hle. }
  assert (validate_text_before_tts (gate_service o) text_stream
          = Ok (JStr (join_surrogates (join_surrogates text)))) as Ev.
  { rewrite (validate_served o text_stream f Ef Hf). fold text. rewrite Er. cbn [snd].
    case_bool_decide as Et; [rewrite Et; reflexivity|].
    cbn [pass_through jsonify status body]. cbn [Z.leb Z.compare andb].
    rewrite lookup_singleton_eq. reflexivity. }
  split; [exact Ev|]. split.
  - intros Hwf. rewrite Ev, !(join_surrogates_well_formed text Hwf). reflexivity.
  - exists f. split; [exact Ef|]. rewrite wire_request, Er. reflexivity.
Qed.

Lemma short_text_unchanged_witness :
  let text_stream := Stream [[97; 32; 55357]%N; [56832; 32; 98]%N] in
  let text := source_text text_stream in
  let o := failing_summarizer "down" in
  validate_text_before_tts (gate_service o) text_stream
  = Ok (JStr (join_surrogates (join_surrogates text)))
  /\ (well_formed text ->
      validate_text_before_tts (gate_service o) text_stream = Ok (JStr text))
  /\ exists f,
       calculate_audio_duration text = Ok f
       /\ fst (run o (handle_audio_validation
                        (wire (JObj (<["length" := JFloat f]>
                                       {[ "text" := JStr text ]})))))
          = [].
Proof.
  intros text_stream.
  apply (short_text_unchanged (failing_summarizer "down") text_stream);
    vm_compute; discriminate.
Defined.

(** A high surrogate at the end of one chunk and a low surrogate at the start
    of the next come back joined into one code point. *)
Example surrogate_pair_is_joined :
  validate_text_before_tts (gate_service (failing_summarizer "down"))
    (Stream [[97; 32; 55357]%N; [56832; 32; 98]%N])
  = Ok (JStr [97; 32; 128512; 32; 98]%N).
Proof. vm_compute. reflexivity. Qed.

(** ** Long texts *)

Lemma long_text_run (o : oracle) (text trimmed : str) (f : spec_float) :
  Z.of_nat (length text) <= PY_SSIZE_T_MAX ->
  150 < Z.of_nat (length (split text)) ->
  calculate_audio_duration text = Ok f ->
  trim_text_middle (join_surrogates text) half = Ok trimmed ->
  handle_audio_validation
    (JObj (<["length" := JFloat f]> {[ "text" := JStr (join_surrogates text) ]}))
  = Summarizer (summarize_call trimmed) after_summary.
Proof.
  intros Hlen Hw Ef Et.
  destruct (estimate_sent text Hlen) as (f' & Ef' & _ & _ & Hgt).
  rewrite Ef in Ef'. injection Ef' as <-.
  assert (text <> []) as Hne by (intros E; rewrite E in Hw; cbn in Hw; lia).
  apply (handle_reduce _ (join_surrogates text) _ (JFloat f));
    [apply callback_body_text|apply join_surrogates_nonempty; exact Hne
    |apply callback_body_length|apply Hgt; exact Hw|exact Et].
Qed.

(** A text of more than 150 words is replaced by a summary: with [trimmed]
    the trim of the text as it reaches the service, the service makes the one
    call [summarizer(trimmed, max_length=100, min_length=50,
    do_sample=False)] and answers with its [summary_text], and the callback
    returns that summary as it comes back over the wire.  For a text without
    surrogate code points [trimmed] is the middle [floor(w / 2)] words of the
    text, joined by single spaces. *)
Theorem long_text_summarized (o : oracle) (text_stream : text_source)
    (trimmed : str) (item : gmap string json) (rest : list (gmap string json))
    (summary : json) :
  let text := source_text text_stream in
  let w := Z.of_nat (length (split text)) in
  let kept := take (Z.to_nat (w / 2)) (drop (Z.to_nat ((w - w / 2) / 2)) (split text)) in
  Z.of_nat (length text) <= PY_SSIZE_T_MAX ->
  150 < w ->
  trim_text_middle (join_surrogates text) half = Ok trimmed ->
  o (SummarizerCall trimmed 100 50 false) = Ok (item :: rest) ->
  item !! "summary_text" = Some summary ->
  (exists f,
     calculate_audio_duration text = Ok f
     /\ run o (handle_audio_validation
                 (wire (JObj (<["length" := JFloat f]> {[ "text" := JStr text ]}))))
        = ([SummarizerCall trimmed 100 50 false],
           Ok (Response 200 {[ "message" := summary ]})))
  /\ validate_text_before_tts (gate_service o) text_stream = Ok (wire summary)
  /\ (forall s, summary = JStr s -> well_formed s ->
        validate_text_before_tts (gate_service o) text_stream = Ok (JStr s))
  /\ (well_formed text -> w < 2 ^ 53 ->
      trimmed = join (str_of_string " ") kept).
Proof.
  intros text w kept Hlen Hlo Et Ho Hs.
  destruct (estimate_sent text Hlen) as (f & Ef & Hf & _).
  pose proof (long_text_run o text trimmed f Hlen Hlo Ef Et) as Er.
  assert (validate_text_before_tts (gate_service o) text_stream = Ok (wire summary))
    as Ev.
  { rewrite (validate_served o text_stream f Ef Hf). fold text. rewrite Er.
    rewrite (run_summarizer_ok o (summarize_call trimmed) item rest summary Ho Hs).
    cbn [snd jsonify status body]. cbn [Z.leb Z.compare andb].
    rewrite lookup_singleton_eq. reflexivity. }
  split; [|split; [exact Ev|split]].
  - exists f. split; [exact Ef|]. rewrite wire_request, Er.
    apply (run_summarizer_ok o (summarize_call trimmed) item rest summary Ho Hs).
  - intros s -> Hwf. rewrite Ev. cbn [wire].
    rewrite (join_surrogates_well_formed s Hwf). reflexivity.
  - intros Hwf Hhi. rewrite (join_surrogates_well_formed text Hwf) in Et.
    destruct (trim_kept text (conj Hlo Hhi)) as (Et' & _).
    rewrite Et' in Et. injection Et as <-. reflexivity.
Qed.

Lemma long_text_summarized_witness :
  let o := constant_summarizer (str_of_string "a summary") in
  let text_stream := Whole (sample_text 300) in
  let text := source_text text_stream in
  let w := Z.of_nat (length (split text)) in
  let kept := take (Z.to_nat (w / 2)) (drop (Z.to_nat ((w - w / 2) / 2)) (split text)) in
  let trimmed := join space (take 150 (drop 75 (sample_words 300))) in
  let summary := JStr (str_of_string "a summary") in
  (exists f,
     calculate_audio_duration text = Ok f
     /\ run o (handle_audio_validation
                 (wire (JObj (<["length" := JFloat f]> {[ "text" := JStr text ]}))))
        = ([SummarizerCall trimmed 100 50 false],
           Ok (Response 200 {[ "message" := summary ]})))
  /\ validate_text_before_tts (gate_service o) text_stream = Ok (wire summary)
  /\ (forall s, summary = JStr s -> well_formed s ->
        validate_text_before_tts (gate_service o) text_stream = Ok (JStr s))
  /\ (well_formed text -> w < 2 ^ 53 ->
      trimmed = join (str_of_string " ") kept).
Proof.
  intros o text_stream text w kept trimmed summary.
  apply (long_text_summarized o text_stream trimmed
           {[ "summary_text" := summary ]} [] summary).
  - vm_compute. discriminate.
  - vm_compute. reflexivity.
  - vm_compute. reflexivity.
  - reflexivity.
  - apply lookup_singleton_eq.
Defined.

(** When the summarizer raises on a text of more than 150 words, the service
    answers 500 and the callback returns the original text, whole and
    untrimmed.  The call that raises is the one the service makes, on
    [trimmed], the trim of the text as it reaches the service; for a text
    without surrogate code points that is the middle [floor(w / 2)] words of
    the text, joined by single spaces. *)
Theorem long_text_fallback (o : oracle) (text_stream : text_source)
    (trimmed : str) (e : exn) :
  let text := source_text text_stream in
  let w := Z.of_nat (length (split text)) in
  let kept := take (Z.to_nat (w / 2)) (drop (Z.to_nat ((w - w / 2) / 2)) (split text)) in
  Z.of_nat (length text) <= PY_SSIZE_T_MAX ->
  150 < w ->
  trim_text_middle (join_surrogates text) half = Ok trimmed ->
  o (SummarizerCall trimmed 100 50 false) = Raise e ->
  (exists f,
     calculate_audio_duration text = Ok f
     /\ gate_service o FLASK_API_URL
          (JObj (<["length" := JFloat f]> {[ "text" := JStr text ]}))
        = Ok (HttpResponse 500 (Raise ValueError)))
  /\ validate_text_before_tts (gate_service o) text_stream = Ok (JStr text)
  /\ (well_formed text -> w < 2 ^ 53 ->
      trimmed = join (str_of_string " ") kept).
Proof.
  intros text w kept Hlen Hlo Et Ho.
  destruct (estimate_sent text Hlen) as (f & Ef & Hf & _).
  pose proof (long_text_run o text trimmed f Hlen Hlo Ef Et) as Er.
  split; [|split].
  - exists f. split; [exact Ef|].
    unfold gate_service.
    rewrite (request_is_finite f _ Hf), String.eqb_refl, wire_request, Er.
    rewrite (run_summarizer_raise o (summarize_call trimmed) e Ho).
    reflexivity.
  - rewrite (validate_served o text_stream f Ef Hf). fold text. rewrite Er.
    rewrite (run_summarizer_raise o (summarize_call trimmed) e Ho).
    reflexivity.
  - intros Hwf Hhi. rewrite (join_surrogates_well_formed text Hwf) in Et.
    destruct (trim_kept text (conj Hlo Hhi)) as (Et' & _).
    rewrite Et' in Et. injection Et as <-. reflexivity.
Qed.

Lemma long_text_fallback_witness :
  let text_stream := Whole (sample_text 300) in
  let text := source_text text_stream in
  let w := Z.of_nat (length (split text)) in
  let kept := take (Z.to_nat (w / 2)) (drop (Z.to_nat ((w - w / 2) / 2)) (split text)) in
  let trimmed := join space (take 150 (drop 75 (sample_words 300))) in
  let o := failing_summarizer "timeout" in
  (exists f,
     calculate_audio_duration text = Ok f
     /\ gate_service o FLASK_API_URL
          (JObj (<["length" := JFloat f]> {[ "text" := JStr text ]}))
        = Ok (HttpResponse 500 (Raise ValueError)))
  /\ validate_text_before_tts (gate_service o) text_stream = Ok (JStr text)
  /\ (well_formed text -> w < 2 ^ 53 ->
      trimmed = join (str_of_string " ") kept).
Proof.
  intros text_stream text w kept trimmed o.
  apply (long_text_fallback o text_stream trimmed (External "timeout")).
  - vm_compute. discriminate.
  - vm_compute. reflexivity.
  - vm_compute. reflexivity.
  - reflexivity.
Defined.

(** ** Every text *)

(** Against the service the callback never raises: for every text and every
    summarizer it returns the original text, the text as it crossed the wire
    twice, or a summary text the summarizer answered with as it came back
    over the wire; for a text without surrogate code points, the original
    text or such a summary. *)
Theorem callback_returns_text_or_summary (o : oracle) (text_stream : text_source) :
  let text := source_text text_stream in
  Z.of_nat (length text) <= PY_SSIZE_T_MAX ->
  exists v,
    validate_text_before_tts (gate_service o) text_stream = Ok v
    /\ (v = JStr text
        \/ v = JStr (join_surrogates (join_surrogates text))
        \/ exists c item rest summary,
             o c = Ok (item :: rest) /\ item !! "summary_text" = Some summary
             /\ v = wire summary)
    /\ (well_formed text ->
        v = JStr text
        \/ exists c item rest summary,
             o c = Ok (item :: rest) /\ item !! "summary_text" = Some summary
             /\ v = wire summary).
Proof.
  intros text Hlen.
  destruct (estimate_sent text Hlen) as (f & Ef & Hf & _).
  rewrite (validate_served o text_stream f Ef Hf). fold text.
  destruct (snd (run o _)) as [resp|e] eqn:Er.
  2:{ eexists. split; [reflexivity|]. split; [left; reflexivity|].
      intros _. left. reflexivity. }
  destruct (handler_result o _ resp Er) as (data & Ed & Hcases).
  rewrite request_data_obj in Ed. injection Ed as <-.
  rewrite callback_body_text in Hcases. cbn [default from_option id] in Hcases.
  destruct Hcases as [[_ ->]|[_ [->|(c & item & rest & summary & Ho & Hs & ->)]]].
  - eexists. split; [reflexivity|]. split; [left; reflexivity|].
    intros _. left. reflexivity.
  - cbn [status body]. cbn [Z.leb Z.compare andb]. rewrite lookup_singleton_eq.
    eexists. split; [reflexivity|]. split; [right; left; reflexivity|].
    intros Hwf. left. cbn. rewrite !(join_surrogates_well_formed text Hwf).
    reflexivity.
  - cbn [status body]. cbn [Z.leb Z.compare andb]. rewrite lookup_singleton_eq.
    eexists. split; [reflexivity|]. split.
    + right. right. exists c, item, rest, summary. repeat split; assumption.
    + intros _. right. exists c, item, rest, summary. repeat split; assumption.
Qed.

Lemma callback_returns_text_or_summary_witness :
  let o := constant_summarizer (str_of_string "a summary") in
  let text := sample_text 300 in
  exists v,
    validate_text_before_tts (gate_service o) (Whole text) = Ok v
    /\ (v = JStr text
        \/ v = JStr (join_surrogates (join_surrogates text))
        \/ exists c item rest summary,
             o c = Ok (item :: rest) /\ item !! "summary_text" = Some summary
             /\ v = wire summary)
    /\ (well_formed text ->
        v = JStr text
        \/ exists c item rest summary,
             o c = Ok (item :: rest) /\ item !! "summary_text" = Some summary
             /\ v = wire summary).
Proof.
  intros o text. apply (callback_returns_text_or_summary o (Whole text)).
  vm_compute. discriminate.
Defined.

(** ** What the fallback does not cover *)



(** * The length of the trimmed text *)

Lemma weight_app (xs ys : list str) : weight (xs ++ ys) = (weight xs + weight ys)%nat.
Proof. induction xs as [|x xs IH]; cbn; [reflexivity|]. rewrite IH. lia. Qed.

Lemma join_weight (ws : list str) :
  ws <> [] -> S (length (join space ws)) = weight ws.
Proof.
  induction ws as [|w ws IH]; intros Hne; [contradiction|].
  destruct ws as [|w' ws]; [cbn; lia|].
  change (join space (w :: w' :: ws)) with (w ++ space ++ join space (w' :: ws)).
  rewrite !length_app. cbn [weight] in *. rewrite <- IH by discriminate.
  cbn. lia.
Qed.

Lemma split_from_weight (s word : str) :
  (weight (split_from s word) <= length s + length word + 1)%nat.
Proof.
  revert word. induction s as [|c s IH]; intros word; cbn [split_from].
  - destruct word as [|a word]; cbn [weight]; [lia|].
    rewrite length_rev. cbn. lia.
  - destruct (isspace c).
    + destruct word as [|a word].
      * specialize (IH []). cbn in *. lia.
      * cbn [weight]. rewrite length_rev. specialize (IH []). cbn in *. lia.
    + specialize (IH (c :: word)). cbn in *. lia.
Qed.

(** The trimmed text is never longer than the text, and for a text of more
    than 150 words it is strictly shorter. *)
Theorem trim_not_longer (text trimmed : str) :
  let w := Z.of_nat (length (split text)) in
  w < 2 ^ 53 ->
  trim_text_middle text half = Ok trimmed ->
  (length trimmed <= length text)%nat
  /\ (150 < w -> (length trimmed < length text)%nat).
Proof.
  intros w Hhi Et. destruct (Z.le_gt_cases w 150) as [Hle|Hgt].
  - rewrite (trim_short text half Hle) in Et. injection Et as <-. split; lia.
  - destruct (trim_kept text ltac:(fold w; lia)) as (Et' & El & Ew & _).
    fold w in Et', El, Ew. rewrite Et' in Et. injection Et as <-.
    set (start := Z.to_nat ((w - w / 2) / 2)) in *.
    set (kept := take (Z.to_nat (w / 2)) (drop start (split text))) in *.
    assert (kept <> []) as Hk.
    { intros E. rewrite E in El. cbn in El. Z.div_mod_to_equations. lia. }
    assert (take start (split text) <> []) as Hf.
    { intros E. apply (f_equal (@length str)) in E. rewrite length_take in E.
      cbn in E. subst start. fold w in E. Z.div_mod_to_equations. lia. }
    pose proof (join_weight kept Hk) as Hj.
    pose proof (split_from_weight text []) as Hs. fold (split text) in Hs.
    rewrite Ew, !weight_app in Hs.
    assert (1 <= weight (take start (split text)))%nat as Hfw
      by (destruct (take start (split text)); [contradiction|cbn; lia]).
    cbn [length] in Hs. split; [|intros _]; lia.
Qed.

Lemma trim_not_longer_witness :
  let text := sample_text 151 in
  let trimmed := join space (take 75 (drop 38 (sample_words 151))) in
  (length trimmed <= length text)%nat
  /\ (150 < Z.of_nat (length (split text)) -> (length trimmed < length text)%nat).
Proof.
  intros text trimmed. apply (trim_not_longer text trimmed); vm_compute; reflexivity.
Defined.
